(** * railway-image-updater: the update endpoint and the Railway client

    A shallow embedding of [main.go] (the HTTP handler and [matchesPrefix])
    and of the Railway client ([GetServices], [resolveReplicaCount],
    [UpdateServiceImage], [UpdateServices]), followed by the properties the
    specification states about them.

    Conventions.
    - A Go [string] is a sequence of bytes: [string] of 8-bit [ascii].
    - A Go [int] is a [Z] (the programs below never overflow one, except in
      the conversion from [float64], which is written out).
    - A Go [map[string]interface{}] is a [gmap string value]; the order in
      which [range] visits a map is not fixed by the language, so it is an
      explicit argument of the code that ranges over one.
    - The remote GraphQL API is an oracle over the history of the calls
      made so far; code that talks to it threads that history.
    - Of the libraries, [strings], [strconv.ParseFloat] and the decoding
      of [encoding/json] into [interface{}] are written out, since
      [resolveReplicaCount] is stated on the bytes of [meta]; the decoding
      of a body or of a response into a struct, and [uuid.Parse], are
      parameters of the code that calls them.
    - Logging is left out. *)

From Stdlib Require Import ZArith NArith String Ascii List Bool Lia.
From Stdlib Require Import SpecFloat DecimalString.
From stdpp Require Import gmap strings list fin_maps.

Set Warnings "-register-all".
Local Open Scope string_scope.
Local Open Scope list_scope.

(* ===================================================================== *)
(** * Go's [strings] package, as far as the program uses it              *)
(* ===================================================================== *)

Module GoStrings.

(** [strings.HasPrefix(s, prefix)]: byte-wise, hence case-sensitive. *)
Definition HasPrefix (s prefix : string) : bool := String.prefix prefix s.

(** [strings.Split(s, sep)] for a separator of one byte (the program
    only splits at [":"]): the pieces between the separators, in order;
    a string with [n] separators gives [n + 1] pieces. *)
Fixpoint Split (s : string) (sep : ascii) : list string :=
  match s with
  | EmptyString => [EmptyString]
  | String c rest =>
      if Ascii.eqb c sep then EmptyString :: Split rest sep
      else match Split rest sep with
           | piece :: pieces => String c piece :: pieces
           | [] => [String c EmptyString]
           end
  end.

End GoStrings.

(* ===================================================================== *)
(** * Go's [float64] and [strconv.ParseFloat]                            *)
(* ===================================================================== *)

Module GoFloat.

(** A [float64] is an IEEE 754 binary64 number: [spec_float] with a
    mantissa of 53 bits and infinities at exponent 1024. *)
Definition float64 : Type := spec_float.
Definition prec : Z := 53.
Definition emax : Z := 1024.

Definition zero : float64 := S754_zero false.

(** [a > b] on [float64]. *)
Definition gt (a b : float64) : bool := SFltb b a.

(** The decimal number [m * 10 ^ e10] with sign [neg], rounded to the
    nearest [float64], ties to even, as [strconv.ParseFloat] rounds. *)
Definition of_decimal (neg : bool) (m : Z) (e10 : Z) : float64 :=
  match m with
  | Zpos p =>
      if (0 <=? e10)%Z
      then binary_round prec emax neg (p * Z.to_pos (10 ^ e10))%positive 0
      else
        let '(q, e, loc) :=
          SFdiv_core_binary prec emax (Zpos p) 0 (10 ^ (- e10))%Z 0 in
        binary_round_aux prec emax neg q e loc
  | _ => S754_zero neg
  end.

Definition minInt64 : Z := - 2 ^ 63.
Definition maxInt64 : Z := 2 ^ 63 - 1.

(** [int(f)] for a [float64]: the fraction is discarded (truncation
    towards zero). When the result does not fit an [int] (64 bits) the
    language leaves the value to the implementation; amd64 gives the
    smallest [int], which is what is written here. *)
Definition to_int (f : float64) : Z :=
  match f with
  | S754_zero _ => 0
  | S754_finite s m e =>
      let t := if (0 <=? e)%Z then (Zpos m * 2 ^ e)%Z
               else (Zpos m / 2 ^ (- e))%Z in
      let v := if s then (- t)%Z else t in
      if ((minInt64 <=? v) && (v <=? maxInt64))%Z then v else minInt64
  | _ => minInt64
  end.

End GoFloat.

(* ===================================================================== *)
(** * Go's [encoding/json]: decoding a document into [interface{}]       *)
(* ===================================================================== *)

(** What [json.Unmarshal] stores in an [interface{}]: [nil], [bool],
    [float64], [string], [[]interface{}] and [map[string]interface{}]. *)
Inductive value :=
  | VNil
  | VBool (b : bool)
  | VFloat (f : GoFloat.float64)
  | VString (s : string)
  | VSlice (items : list value)
  | VMap (m : gmap string value).

Module GoJson.

Definition byte (c : ascii) : N := N_of_ascii c.
Definition chr (n : N) : ascii := ascii_of_N n.

Definition quote : ascii := chr 34.
Definition backslash : ascii := chr 92.

Definition is_space (c : ascii) : bool :=
  let n := byte c in
  ((n =? 32) || (n =? 9) || (n =? 10) || (n =? 13))%N.

Definition is_digit (c : ascii) : bool :=
  let n := byte c in ((48 <=? n) && (n <=? 57))%N.

(** ** Strings *)

(** A byte within the bounds a position of a UTF-8 sequence allows. *)
Definition cont (lo hi : N) (c : ascii) : bool :=
  ((lo <=? byte c) && (byte c <=? hi))%N.

(** The length in bytes of the well-formed UTF-8 sequence at the head
    of [s], or [0] when the head is not one ([utf8.DecodeRune] then
    answers [RuneError] with size 1). *)
Definition utf8_size (s : string) : nat :=
  match s with
  | String c0 rest =>
      let b := byte c0 in
      if (b <? 128)%N then 1%nat
      else if ((194 <=? b) && (b <=? 223))%N then
        match rest with
        | String c1 _ => if cont 128 191 c1 then 2%nat else 0%nat
        | _ => 0%nat
        end
      else if ((224 <=? b) && (b <=? 239))%N then
        match rest with
        | String c1 (String c2 _) =>
            let lo := if (b =? 224)%N then 160%N else 128%N in
            let hi := if (b =? 237)%N then 159%N else 191%N in
            if cont lo hi c1 && cont 128 191 c2 then 3%nat else 0%nat
        | _ => 0%nat
        end
      else if ((240 <=? b) && (b <=? 244))%N then
        match rest with
        | String c1 (String c2 (String c3 _)) =>
            let lo := if (b =? 240)%N then 144%N else 128%N in
            let hi := if (b =? 244)%N then 143%N else 191%N in
            if cont lo hi c1 && cont 128 191 c2 && cont 128 191 c3
            then 4%nat else 0%nat
        | _ => 0%nat
        end
      else 0%nat
  | EmptyString => 0%nat
  end.

(** [utf8.EncodeRune]: the UTF-8 bytes of a code point; a surrogate or a
    value past U+10FFFF is encoded as U+FFFD. *)
Definition replacement : string :=
  String (chr 239) (String (chr 191) (String (chr 189) EmptyString)).

Definition encode_rune (r : N) : string :=
  if (r <? 128)%N then String (chr r) EmptyString
  else if (r <? 2048)%N then
    String (chr (192 + r / 64)) (String (chr (128 + r mod 64)) EmptyString)
  else if ((55296 <=? r) && (r <? 57344))%N || (1114111 <? r)%N then
    replacement
  else if (r <? 65536)%N then
    String (chr (224 + r / 4096))
      (String (chr (128 + (r / 64) mod 64))
         (String (chr (128 + r mod 64)) EmptyString))
  else
    String (chr (240 + r / 262144))
      (String (chr (128 + (r / 4096) mod 64))
         (String (chr (128 + (r / 64) mod 64))
            (String (chr (128 + r mod 64)) EmptyString))).

(** Bytes that are not well-formed UTF-8 become U+FFFD, one per
    offending byte; [k] counts the continuation bytes of an accepted
    sequence that are still to be copied. *)
Fixpoint coerce_utf8 (k : nat) (s : string) : string :=
  match s with
  | EmptyString => EmptyString
  | String c rest =>
      match k with
      | S k' => String c (coerce_utf8 k' rest)
      | O =>
          match utf8_size s with
          | O => replacement +:+ coerce_utf8 0 rest
          | S n => String c (coerce_utf8 n rest)
          end
      end
  end.

Definition hex_digit (c : ascii) : option N :=
  let n := byte c in
  if ((48 <=? n) && (n <=? 57))%N then Some (n - 48)%N
  else if ((97 <=? n) && (n <=? 102))%N then Some (n - 87)%N
  else if ((65 <=? n) && (n <=? 70))%N then Some (n - 55)%N
  else None.

(** [getu4]: the code unit of the four hexadecimal digits of a [\u]
    escape. *)
Definition getu4 (a b c d : ascii) : option N :=
  match hex_digit a, hex_digit b, hex_digit c, hex_digit d with
  | Some x, Some y, Some z, Some w =>
      Some (x * 4096 + y * 256 + z * 16 + w)%N
  | _, _, _, _ => None
  end.

Definition is_surrogate (r : N) : bool := ((55296 <=? r) && (r <? 57344))%N.

(** [utf16.DecodeRune]: the code point of a surrogate pair, when
    [r1] is a high and [r2] a low surrogate. *)
Definition decode_pair (r1 r2 : N) : option N :=
  if ((55296 <=? r1) && (r1 <? 56320) && (56320 <=? r2) && (r2 <? 57344))%N
  then Some ((r1 - 55296) * 1024 + (r2 - 56320) + 65536)%N
  else None.

(** The escapes of one letter: quote, backslash, slash, b, f, n, r, t. *)
Definition simple_escape (c : ascii) : option ascii :=
  let n := byte c in
  if (n =? 34)%N then Some (chr 34)
  else if (n =? 92)%N then Some (chr 92)
  else if (n =? 47)%N then Some (chr 47)
  else if (n =? 98)%N then Some (chr 8)
  else if (n =? 102)%N then Some (chr 12)
  else if (n =? 110)%N then Some (chr 10)
  else if (n =? 114)%N then Some (chr 13)
  else if (n =? 116)%N then Some (chr 9)
  else None.

Definition prepend (p : string) (n : nat) (r : option (string * nat))
  : option (string * nat) :=
  match r with
  | Some (str, m) => Some (p +:+ str, (n + m)%nat)
  | None => None
  end.

(** A string literal, read from just after its opening quote: the bytes
    it denotes (escapes replaced, not yet coerced to UTF-8) and the
    number of bytes of the literal read, closing quote included. A
    control character, an unknown escape or a missing closing quote is a
    syntax error. *)
Fixpoint read_string (s : string) : option (string * nat) :=
  match s with
  | EmptyString => None
  | String c rest =>
      if Ascii.eqb c quote then Some (EmptyString, 1%nat)
      else if Ascii.eqb c backslash then
        match rest with
        | String e rest1 =>
            match simple_escape e with
            | Some b => prepend (String b EmptyString) 2 (read_string rest1)
            | None =>
                if Ascii.eqb e "u" then
                  match rest1 with
                  | String h1 (String h2 (String h3 (String h4 rest2))) =>
                      match getu4 h1 h2 h3 h4 with
                      | None => None
                      | Some rr =>
                          if is_surrogate rr then
                            match rest2 with
                            | String b1 (String b2 (String k1 (String k2
                                (String k3 (String k4 rest3))))) =>
                                match
                                  (if Ascii.eqb b1 backslash && Ascii.eqb b2 "u"
                                   then match getu4 k1 k2 k3 k4 with
                                        | Some rr1 => decode_pair rr rr1
                                        | None => None
                                        end
                                   else None)
                                with
                                | Some r =>
                                    prepend (encode_rune r) 12 (read_string rest3)
                                | None =>
                                    prepend replacement 6 (read_string rest2)
                                end
                            | _ => prepend replacement 6 (read_string rest2)
                            end
                          else prepend (encode_rune rr) 6 (read_string rest2)
                      end
                  | _ => None
                  end
                else None
            end
        | EmptyString => None
        end
      else if (byte c <? 32)%N then None
      else prepend (String c EmptyString) 1 (read_string rest)
  end.

(** ** Numbers *)

(** The leading decimal digits of [s], most significant first, and what
    follows them. *)
Fixpoint take_digits (s : string) : list Z * string :=
  match s with
  | String c rest =>
      if is_digit c then
        let '(ds, rest') := take_digits rest in
        (Z.of_N (byte c - 48) :: ds, rest')
      else ([], s)
  | EmptyString => ([], s)
  end.

Definition decimal (ds : list Z) : Z :=
  fold_left (fun acc d => (10 * acc + d)%Z) ds 0%Z.

(** A number, read from its first byte (["-"] or a digit), by the JSON
    grammar: an optional sign, an integer part with no leading zero, an
    optional fraction, an optional exponent. The result is the
    [float64] [strconv.ParseFloat] gives, and the number of bytes read;
    a number too large for a [float64] is an error. *)
Definition read_number (s : string) : option (GoFloat.float64 * nat) :=
  let '(neg, s1) :=
    match s with
    | String "-" r => (true, r)
    | _ => (false, s)
    end in
  let int_part :=
    match s1 with
    | String "0" r => Some ([0%Z], r)
    | String c _ => if is_digit c then Some (take_digits s1) else None
    | EmptyString => None
    end in
  match int_part with
  | None => None
  | Some (ids, s2) =>
      let frac_part :=
        match s2 with
        | String "." r =>
            match take_digits r with
            | ([], _) => None
            | (fds, s3) => Some (fds, s3)
            end
        | _ => Some ([], s2)
        end in
      match frac_part with
      | None => None
      | Some (fds, s3) =>
          let exp_part :=
            match s3 with
            | String c r =>
                if Ascii.eqb c "e" || Ascii.eqb c "E" then
                  let '(eneg, r') :=
                    match r with
                    | String "-" r' => (true, r')
                    | String "+" r' => (false, r')
                    | _ => (false, r)
                    end in
                  match take_digits r' with
                  | ([], _) => None
                  | (eds, s4) =>
                      Some ((if eneg then - decimal eds else decimal eds)%Z, s4)
                  end
                else Some (0%Z, s3)
            | EmptyString => Some (0%Z, s3)
            end in
          match exp_part with
          | None => None
          | Some (e, s4) =>
              let f := GoFloat.of_decimal neg (decimal (ids ++ fds))
                         (e - Z.of_nat (length fds)) in
              match f with
              | S754_infinity _ => None
              | _ => Some (f, (String.length s - String.length s4)%nat)
              end
          end
      end
  end.

(** ** Tokens *)

Inductive token :=
  | TBeginObject | TEndObject | TBeginArray | TEndArray
  | TColon | TComma
  | TLit (v : value).      (* a string, a number, true, false or null *)

Definition emit (t : token) (r : option (list token)) : option (list token) :=
  match r with
  | Some ts => Some (t :: ts)
  | None => None
  end.

(** The tokens of a document. [skip] counts the bytes of the token just
    read that are still to be passed over. *)
Fixpoint lex (skip : nat) (s : string) : option (list token) :=
  match s with
  | EmptyString => Some []
  | String c rest =>
      match skip with
      | S k => lex k rest
      | O =>
          if is_space c then lex 0 rest
          else if Ascii.eqb c "{" then emit TBeginObject (lex 0 rest)
          else if Ascii.eqb c "}" then emit TEndObject (lex 0 rest)
          else if Ascii.eqb c "[" then emit TBeginArray (lex 0 rest)
          else if Ascii.eqb c "]" then emit TEndArray (lex 0 rest)
          else if Ascii.eqb c ":" then emit TColon (lex 0 rest)
          else if Ascii.eqb c "," then emit TComma (lex 0 rest)
          else if Ascii.eqb c quote then
            match read_string rest with
            | Some (str, n) =>
                emit (TLit (VString (coerce_utf8 0 str))) (lex n rest)
            | None => None
            end
          else if Ascii.eqb c "-" || is_digit c then
            match read_number s with
            | Some (f, n) => emit (TLit (VFloat f)) (lex (n - 1) rest)
            | None => None
            end
          else if String.prefix "true" s then
            emit (TLit (VBool true)) (lex 3 rest)
          else if String.prefix "false" s then
            emit (TLit (VBool false)) (lex 4 rest)
          else if String.prefix "null" s then
            emit (TLit VNil) (lex 3 rest)
          else None
      end
  end.

(** ** Values *)

(** A container under construction: an array with the items read so
    far (last first), or an object with the key whose value is being
    read, if any. *)
Inductive frame :=
  | FArr (items : list value)
  | FObj (m : gmap string value) (key : option string).

(** What may come next. *)
Inductive mode :=
  | Value          (* a value *)
  | ValueOrEnd     (* a value or "]" : just after "[" *)
  | KeyOrEnd       (* a key or "}"   : just after "{" *)
  | Key            (* a key          : after "," in an object *)
  | Colon          (* ":"            : after a key *)
  | CommaOrEnd     (* "," or the end of the container *)
  | Done (v : value).   (* nothing: the document is complete *)

(** The scanner refuses a document nested deeper than this. *)
Definition maxNestingDepth : Z := 10000.

(** A value is complete: it is the document, the next item of the
    array, or the value of the pending key (a repeated key keeps its
    last value). *)
Definition complete (v : value) (stack : list frame)
  : option (list frame * mode) :=
  match stack with
  | [] => Some ([], Done v)
  | FArr items :: st => Some (FArr (v :: items) :: st, CommaOrEnd)
  | FObj m (Some k) :: st => Some (FObj (<[k := v]> m) None :: st, CommaOrEnd)
  | FObj _ None :: _ => None
  end.

Definition open (f : frame) (md : mode) (stack : list frame)
  : option (list frame * mode) :=
  if (Z.of_nat (length stack) <? maxNestingDepth)%Z then Some (f :: stack, md)
  else None.

Definition step (stack : list frame) (md : mode) (t : token)
  : option (list frame * mode) :=
  match md, t with
  | (Value | ValueOrEnd), TLit v => complete v stack
  | (Value | ValueOrEnd), TBeginArray => open (FArr []) ValueOrEnd stack
  | (Value | ValueOrEnd), TBeginObject => open (FObj ∅ None) KeyOrEnd stack
  | ValueOrEnd, TEndArray =>
      match stack with
      | FArr items :: st => complete (VSlice (rev items)) st
      | _ => None
      end
  | (KeyOrEnd | Key), TLit (VString k) =>
      match stack with
      | FObj m None :: st => Some (FObj m (Some k) :: st, Colon)
      | _ => None
      end
  | KeyOrEnd, TEndObject =>
      match stack with
      | FObj m None :: st => complete (VMap m) st
      | _ => None
      end
  | Colon, TColon => Some (stack, Value)
  | CommaOrEnd, TComma =>
      match stack with
      | FArr _ :: _ => Some (stack, Value)
      | FObj _ None :: _ => Some (stack, Key)
      | _ => None
      end
  | CommaOrEnd, TEndArray =>
      match stack with
      | FArr items :: st => complete (VSlice (rev items)) st
      | _ => None
      end
  | CommaOrEnd, TEndObject =>
      match stack with
      | FObj m None :: st => complete (VMap m) st
      | _ => None
      end
  | _, _ => None
  end.

Fixpoint run (stack : list frame) (md : mode) (ts : list token)
  : option value :=
  match ts with
  | [] => match md with Done v => Some v | _ => None end
  | t :: ts' =>
      match step stack md t with
      | Some (stack', md') => run stack' md' ts'
      | None => None
      end
  end.

(** The value of a document, or [None] where [json.Unmarshal] reports an
    error (a syntax error, or a number out of range). *)
Definition decode (data : string) : option value :=
  match lex 0 data with
  | Some ts => run [] Value ts
  | None => None
  end.

(** [json.Unmarshal(data, &m)] for [m] of type [map[string]interface{}]
    that is still [nil]: an object fills the map, [null] leaves it [nil]
    (which reads as the empty map), anything else is an error. *)
Definition Unmarshal_map (data : string) : option (gmap string value) :=
  match decode data with
  | Some (VMap m) => Some m
  | Some VNil => Some ∅
  | _ => None
  end.

(** [json.Unmarshal(data, &s)] for [s] of type [string] that is still
    empty: a string literal sets it, [null] leaves it, anything else is
    an error. *)
Definition Unmarshal_string (data : string) : option string :=
  match decode data with
  | Some (VString s) => Some s
  | Some VNil => Some EmptyString
  | _ => None
  end.

(** A string literal for [s], for writing documents down: quotes and
    backslashes escaped (the text is otherwise printable ASCII). *)
Fixpoint escape (s : string) : string :=
  match s with
  | EmptyString => EmptyString
  | String c rest =>
      if Ascii.eqb c quote || Ascii.eqb c backslash
      then String backslash (String c (escape rest))
      else String c (escape rest)
  end.

Definition literal (s : string) : string :=
  String quote (escape s) +:+ String quote EmptyString.

End GoJson.

(* ===================================================================== *)
(** * main.go: [matchesPrefix]                                           *)
(* ===================================================================== *)

(** [for _, prefix := range prefixes { if strings.HasPrefix(image, prefix)
    { return true } }; return false] *)
Fixpoint matchesPrefix (image : string) (prefixes : list string) : bool :=
  match prefixes with
  | [] => false
  | prefix :: rest =>
      if GoStrings.HasPrefix image prefix then true
      else matchesPrefix image rest
  end.

(* ===================================================================== *)
(** * UpdateServices: matching and rewriting one image                   *)
(* ===================================================================== *)

(** The inner loop of [UpdateServices]: [matched] and [imagePrefix] after
    the loop over [imagePrefixes] (it breaks at the first prefix the image
    starts with; [imagePrefix] keeps its zero value otherwise). *)
Fixpoint matchImage (image : string) (imagePrefixes : list string)
  : bool * string :=
  match imagePrefixes with
  | [] => (false, EmptyString)
  | prefix :: rest =>
      if GoStrings.HasPrefix image prefix then (true, prefix)
      else matchImage image rest
  end.

(** The tag substitution of [UpdateServices]:
    [imageParts := strings.Split(service.Image, ":")], then
    [imageParts[0] + ":" + newVersion] when there is more than one part and
    [service.Image + ":" + newVersion] otherwise. *)
Definition replaceTag (image newVersion : string) : string :=
  let imageParts := GoStrings.Split image ":" in
  if (1 <? length imageParts)%nat
  then hd EmptyString imageParts +:+ ":" +:+ newVersion
  else image +:+ ":" +:+ newVersion.

(** The whole rewrite of [UpdateServices]: the tag substitution, replaced
    by [imagePrefix + ":" + newVersion] when its result does not start
    with [imagePrefix]. *)
Definition rewriteImage (image imagePrefix newVersion : string) : string :=
  let newImage := replaceTag image newVersion in
  if negb (GoStrings.HasPrefix newImage imagePrefix)
  then imagePrefix +:+ ":" +:+ newVersion
  else newImage.

(** The tag substitution as the specification words it: everything after
    the last [":"] of the image is replaced by the version; an image with
    no [":"] gets [":" ++ version] appended. *)
Fixpoint beforeLastColon (s : string) : option string :=
  match s with
  | EmptyString => None
  | String c rest =>
      match beforeLastColon rest with
      | Some head => Some (String c head)
      | None => if Ascii.eqb c ":" then Some EmptyString else None
      end
  end.

Definition spec_replaceTag (image newVersion : string) : string :=
  match beforeLastColon image with
  | Some head => head +:+ ":" +:+ newVersion
  | None => image +:+ ":" +:+ newVersion
  end.


(* ===================================================================== *)
(** * The Railway client: data                                           *)
(* ===================================================================== *)

(** An [error] is its message; [fmt.Errorf("...: %w", err)] puts a text
    before the message of [err]. *)
Inductive result (A : Type) :=
  | Ok (a : A)
  | Err (msg : string).
Arguments Ok {A} a.
Arguments Err {A} msg.

(** A Go slice: [nil], or a (possibly empty) sequence of elements. The
    two differ when encoded as JSON: [null] and an array. *)
Inductive slice (A : Type) :=
  | nil_slice
  | Slice (elems : list A).
Arguments nil_slice {A}.
Arguments Slice {A} elems.

Definition len {A} (s : slice A) : nat :=
  match s with
  | nil_slice => 0
  | Slice elems => length elems
  end.

(** [append(s, x)]. *)
Definition append {A} (s : slice A) (x : A) : slice A :=
  match s with
  | nil_slice => Slice [x]
  | Slice elems => Slice (elems ++ [x])
  end.

Record RailwayClient := {
  token : string;
  registryCredentialUser : string;
  registryCredentialPass : string
}.

Record Service := {
  ID : string;
  Name : string;
  Image : string;
  NumReplicas : Z
}.

(** [latestDeployment]: the [meta] of the latest deployment, a
    [json.RawMessage] ([None] is the [nil] message). *)
Record Deployment := {
  Meta : option string
}.

(** A node of [environment.serviceInstances.edges], as [GetServices]
    decodes it. *)
Record Node := {
  Node_ID : string;
  ServiceID : string;
  ServiceName : string;
  LatestDeployment : option Deployment;
  Source_Image : string;
  Source_Repo : string
}.

(** The requests [doRequest] sends: the environment query of
    [GetServices] and the two mutations of [UpdateServiceImage], with
    their variables. *)
Inductive Call :=
  | EnvironmentQuery (environmentId : string)
  | ServiceInstanceUpdate (environmentId serviceId : string)
      (image : string) (numReplicas : Z)
      (registryCredentials : option (string * string))
  | ServiceInstanceDeploy (serviceId environmentId : string)
      (latestCommit : bool).

(** Code that calls the remote API threads the calls made so far. *)
Definition Remote (A : Type) : Type := list Call -> A * list Call.

Definition ret {A} (a : A) : Remote A := fun h => (a, h).

Definition bind {A B} (m : Remote A) (k : A -> Remote B) : Remote B :=
  fun h => let '(a, h') := m h in k a h'.

Notation "'do' x <- m ; k" := (bind m (fun x => k))
  (at level 10, x name, m at level 100, k at level 200).

(** The order in which a [range] statement visits a map. *)
Definition RangeOrder : Type := gmap string value -> list (string * value).

(** Every entry of the map is visited once. *)
Definition range_ok (order : RangeOrder) : Prop :=
  forall m, order m ≡ₚ map_to_list m.

(* ===================================================================== *)
(** * [resolveReplicaCount]                                              *)
(* ===================================================================== *)

(** [x.(map[string]interface{})] for the value of a map at a key (a
    missing key gives [nil], for which the assertion fails). *)
Definition as_map (v : option value) : option (gmap string value) :=
  match v with
  | Some (VMap m) => Some m
  | _ => None
  end.

(** [x.(float64)], likewise. *)
Definition as_float64 (v : option value) : option GoFloat.float64 :=
  match v with
  | Some (VFloat f) => Some f
  | _ => None
  end.

(** The loop over [multiRegionConfig], in the order [range] gives: the
    first region whose configuration is a map with a [numReplicas] that is
    a [float64] greater than zero, and [int(numReplicas)]; [None] when the
    loop ends without returning. *)
Fixpoint firstValidRegion (entries : list (string * value))
  : option (string * Z) :=
  match entries with
  | [] => None
  | (region, regionConfig) :: rest =>
      match as_map (Some regionConfig) with
      | None => firstValidRegion rest
      | Some regionMap =>
          match as_float64 (regionMap !! "numReplicas") with
          | Some numReplicas =>
              if GoFloat.gt numReplicas GoFloat.zero
              then Some (region, GoFloat.to_int numReplicas)
              else firstValidRegion rest
          | None => firstValidRegion rest
          end
      end
  end.

(** The two decoding attempts: [meta] directly, else [meta] as a string
    whose contents are decoded in turn. *)
Definition decodeMeta (raw : string) : option (gmap string value) :=
  match GoJson.Unmarshal_map raw with
  | Some meta => Some meta
  | None =>
      match GoJson.Unmarshal_string raw with
      | None => None
      | Some metaStr => GoJson.Unmarshal_map metaStr
      end
  end.

(** [meta.serviceManifest.deploy.multiRegionConfig]. *)
Definition multiRegionConfigOf (meta : gmap string value)
  : option (gmap string value) :=
  match as_map (meta !! "serviceManifest") with
  | None => None
  | Some serviceManifest =>
      match as_map (serviceManifest !! "deploy") with
      | None => None
      | Some deploy => as_map (deploy !! "multiRegionConfig")
      end
  end.

Definition resolveReplicaCount (order : RangeOrder) (serviceName : string)
  (latestDeployment : option Deployment) : Z :=
  let replicas := 1%Z in
  match latestDeployment with
  | None => replicas
  | Some d =>
      match Meta d with
      | None => replicas
      | Some raw =>
          match decodeMeta raw with
          | None => replicas
          | Some meta =>
              match multiRegionConfigOf meta with
              | None => replicas
              | Some multiRegionConfig =>
                  match firstValidRegion (order multiRegionConfig) with
                  | Some (_, n) => n
                  | None => replicas
                  end
              end
          end
      end
  end.

(* ===================================================================== *)
(** * [GetServices], [UpdateServiceImage], [UpdateServices]              *)
(* ===================================================================== *)

Section Client.

(** The remote API: what [doRequest] returns for a call, given the calls
    made before it (the data of the response, or an error). *)
Variable respond : list Call -> Call -> result string.

(** [json.Unmarshal(data, &result)] in [GetServices]: the nodes of the
    edges of the environment, or an error. *)
Variable decodeEnvironment : string -> result (list Node).

(** The order of the [range] over [multiRegionConfig], for the edge at
    each index. *)
Variable order : nat -> RangeOrder.

Definition doRequest (c : Call) : Remote (result string) :=
  fun h => (respond h c, h ++ [c]).

(** The loop of [GetServices] over the edges, from the edge at index
    [i]: the services with an image. *)
Fixpoint servicesOf (i : nat) (nodes : list Node) : list Service :=
  match nodes with
  | [] => []
  | node :: rest =>
      if negb (String.eqb (Source_Image node) EmptyString) then
        let replicas :=
          resolveReplicaCount (order i) (ServiceName node)
            (LatestDeployment node) in
        {| ID := ServiceID node; Name := ServiceName node;
           Image := Source_Image node; NumReplicas := replicas |}
        :: servicesOf (S i) rest
      else servicesOf (S i) rest
  end.

Definition GetServices (environmentID : string)
  : Remote (result (list Service)) :=
  do r <- doRequest (EnvironmentQuery environmentID) ;
  match r with
  | Err err => ret (Err err)
  | Ok data =>
      match decodeEnvironment data with
      | Err err => ret (Err ("failed to parse services: " +:+ err))
      | Ok nodes => ret (Ok (servicesOf 0 nodes))
      end
  end.

Definition credentialsOf (c : RailwayClient) : option (string * string) :=
  if negb (String.eqb (registryCredentialUser c) EmptyString)
     && negb (String.eqb (registryCredentialPass c) EmptyString)
  then Some (registryCredentialUser c, registryCredentialPass c)
  else None.

(** [None] is the [nil] error. *)
Definition UpdateServiceImage (c : RailwayClient)
  (serviceID environmentID newImage : string) (numReplicas : Z)
  : Remote (option string) :=
  do r <- doRequest (ServiceInstanceUpdate environmentID serviceID newImage
                    numReplicas (credentialsOf c)) ;
  match r with
  | Err err => ret (Some ("failed to update service instance: " +:+ err))
  | Ok _ =>
      do r' <- doRequest (ServiceInstanceDeploy serviceID environmentID false) ;
      match r' with
      | Err err => ret (Some ("failed to deploy service instance: " +:+ err))
      | Ok _ => ret None
      end
  end.

(** The loop of [UpdateServices] over the services. *)
Fixpoint updateLoop (c : RailwayClient) (environmentID : string)
  (imagePrefixes : list string) (newVersion : string)
  (services : list Service) (updatedServices : slice string)
  : Remote (slice string * option string) :=
  match services with
  | [] => ret (updatedServices, None)
  | service :: rest =>
      let '(matched, imagePrefix) :=
        matchImage (Image service) imagePrefixes in
      if negb matched then
        updateLoop c environmentID imagePrefixes newVersion rest
          updatedServices
      else
        let newImage :=
          rewriteImage (Image service) imagePrefix newVersion in
        do err <- UpdateServiceImage c (ID service) environmentID newImage
                 (NumReplicas service) ;
        match err with
        | Some err =>
            ret (updatedServices,
                 Some ("failed to update service " +:+ Name service
                       +:+ ": " +:+ err))
        | None =>
            updateLoop c environmentID imagePrefixes newVersion rest
              (append updatedServices (Name service))
        end
  end.

Definition UpdateServices (c : RailwayClient) (environmentID : string)
  (imagePrefixes : list string) (newVersion : string)
  : Remote (slice string * option string) :=
  do r <- GetServices environmentID ;
  match r with
  | Err err => ret (nil_slice, Some ("failed to get services: " +:+ err))
  | Ok services =>
      updateLoop c environmentID imagePrefixes newVersion services
        (Slice [])
  end.

End Client.

(* ===================================================================== *)
(** * main.go: [handleUpdate]                                            *)
(* ===================================================================== *)

Record UpdateRequest := {
  ProjectID : string;
  EnvironmentID : string;
  ImagePrefixes : list string;
  NewVersion : string
}.

(** The JSON the handler encodes: an [ErrorResponse] or a
    [SuccessResponse]. *)
Inductive Payload :=
  | ErrorResponse (Error : string)
  | SuccessResponse (Message : string) (UpdatedServices : slice string).

Record Response := {
  StatusCode : Z;
  Body : Payload
}.

Definition StatusOK : Z := 200.
Definition StatusBadRequest : Z := 400.
Definition StatusMethodNotAllowed : Z := 405.
Definition StatusInternalServerError : Z := 500.

(** [%d] of [fmt.Sprintf], for a length. *)
Definition itoa (n : nat) : string := NilZero.string_of_uint (Nat.to_uint n).

Section Handler.

Variable respond : list Call -> Call -> result string.
Variable decodeEnvironment : string -> result (list Node).
Variable order : nat -> RangeOrder.

(** [json.NewDecoder(r.Body).Decode(&req)]: the request, or the error of
    the decoder. *)
Variable decodeRequest : string -> result UpdateRequest.

(** [uuid.Parse(s)] returns no error. *)
Variable uuid_Parse : string -> bool.

Definition handleUpdate (c : RailwayClient) (method body : string)
  : Remote Response :=
  if negb (String.eqb method "PUT") then
    ret {| StatusCode := StatusMethodNotAllowed;
           Body := ErrorResponse "Method not allowed, use PUT" |}
  else
    match decodeRequest body with
    | Err err =>
        ret {| StatusCode := StatusBadRequest;
               Body := ErrorResponse ("Invalid JSON: " +:+ err) |}
    | Ok req =>
        if negb (uuid_Parse (ProjectID req)) then
          ret {| StatusCode := StatusBadRequest;
                 Body := ErrorResponse
                           "Invalid project_id: must be a valid UUID" |}
        else if negb (uuid_Parse (EnvironmentID req)) then
          ret {| StatusCode := StatusBadRequest;
                 Body := ErrorResponse
                           "Invalid environment_id: must be a valid UUID" |}
        else if (length (ImagePrefixes req) =? 0)%nat then
          ret {| StatusCode := StatusBadRequest;
                 Body := ErrorResponse "image_prefixes cannot be empty" |}
        else if String.eqb (NewVersion req) EmptyString then
          ret {| StatusCode := StatusBadRequest;
                 Body := ErrorResponse "new_version cannot be empty" |}
        else
          do r <- UpdateServices respond decodeEnvironment order c
                 (EnvironmentID req) (ImagePrefixes req) (NewVersion req) ;
          let '(updatedServices, err) := r in
          match err with
          | Some err =>
              ret {| StatusCode := StatusInternalServerError;
                     Body := ErrorResponse
                               ("Failed to update services: " +:+ err) |}
          | None =>
              if (len updatedServices =? 0)%nat then
                ret {| StatusCode := StatusOK;
                       Body := SuccessResponse
                         "No services matched the provided image prefixes"
                         (Slice []) |}
              else
                ret {| StatusCode := StatusOK;
                       Body := SuccessResponse
                         ("Successfully updated "
                          +:+ itoa (len updatedServices) +:+ " service(s)")
                         updatedServices |}
          end
    end.

End Handler.

(* ===================================================================== *)
(** * Vocabulary of the properties                                       *)
(* ===================================================================== *)

(** The services the update loop selects, in the order of the list. *)
Definition matchedServices (imagePrefixes : list string)
  (services : list Service) : list Service :=
  List.filter (fun s => fst (matchImage (Image s) imagePrefixes)) services.

(** The two remote calls for a selected service: the update of its image
    source, then its redeploy. *)
Definition updateCall (c : RailwayClient) (environmentID : string)
  (imagePrefixes : list string) (newVersion : string) (s : Service) : Call :=
  ServiceInstanceUpdate environmentID (ID s)
    (rewriteImage (Image s) (snd (matchImage (Image s) imagePrefixes))
       newVersion)
    (NumReplicas s) (credentialsOf c).

Definition deployCall (environmentID : string) (s : Service) : Call :=
  ServiceInstanceDeploy (ID s) environmentID false.

Definition callsFor (c : RailwayClient) (environmentID : string)
  (imagePrefixes : list string) (newVersion : string) (s : Service)
  : list Call :=
  [updateCall c environmentID imagePrefixes newVersion s;
   deployCall environmentID s].

Definition callsForAll (c : RailwayClient) (environmentID : string)
  (imagePrefixes : list string) (newVersion : string)
  (services : list Service) : list Call :=
  flat_map (callsFor c environmentID imagePrefixes newVersion) services.

(** The remote API answers every call of [calls] without an error, when
    they are made in this order after the calls of [h]. *)
Fixpoint succeeds (respond : list Call -> Call -> result string)
  (h : list Call) (calls : list Call) : bool :=
  match calls with
  | [] => true
  | c :: rest =>
      match respond h c with
      | Ok _ => succeeds respond (h ++ [c]) rest
      | Err _ => false
      end
  end.

(** The error [UpdateServices] returns for a service whose update, or
    whose redeploy, failed with [err]. *)
Definition updateError (s : Service) (err : string) : string :=
  "failed to update service " +:+ Name s +:+ ": "
  +:+ "failed to update service instance: " +:+ err.

Definition deployError (s : Service) (err : string) : string :=
  "failed to update service " +:+ Name s +:+ ": "
  +:+ "failed to deploy service instance: " +:+ err.

(** ** Sample environments

    Concrete clients, platforms and environments, on which the general
    statements below are instantiated. *)

Definition sampleClient : RailwayClient :=
  {| token := "secret"; registryCredentialUser := EmptyString;
     registryCredentialPass := EmptyString |}.

Definition sampleNode (id name image : string) : Node :=
  {| Node_ID := "instance-" +:+ id; ServiceID := id; ServiceName := name;
     LatestDeployment := None; Source_Image := image;
     Source_Repo := EmptyString |}.

(** A platform on which every call succeeds. *)
Definition respondOk : list Call -> Call -> result string :=
  fun _ _ => Ok "{}".

(** A platform that refuses to update the image of one service. *)
Definition respondRefusing (serviceId : string)
  : list Call -> Call -> result string :=
  fun _ call =>
    match call with
    | ServiceInstanceUpdate _ id _ _ _ =>
        if String.eqb id serviceId then Err "GraphQL error: not authorized"
        else Ok "{}"
    | _ => Ok "{}"
    end.

(** An environment with the given nodes. *)
Definition environmentOf (nodes : list Node) : string -> result (list Node) :=
  fun _ => Ok nodes.

(** A runtime that visits every map in the order of its keys' codes. *)
Definition keyOrder : nat -> RangeOrder := fun _ => map_to_list.

Definition threeNodes : list Node :=
  [sampleNode "s1" "web" "myapp:v1.0.0";
   sampleNode "s2" "worker" "myapp-worker:v1.0.0";
   sampleNode "s3" "cron" "myapp-cron:v1.0.0"].

(** ** Replica counts *)


(** The [multiRegionConfig] the function reaches in a [meta], if any. *)
Definition regionsOf (raw : string) : option (gmap string value) :=
  match decodeMeta raw with
  | Some meta => multiRegionConfigOf meta
  | None => None
  end.

(** A deployment with the given [meta]. *)
Definition deployed (raw : string) : option Deployment :=
  Some {| Meta := Some raw |}.

(** ** Sample metadata

    The documents are written with [GoJson.literal] for their quoted
    names: [metaWith (region "us-east4" "3")] is the text
    [{"serviceManifest":{"deploy":{"multiRegionConfig":{"us-east4":{"numReplicas":3}}}}}]. *)

Definition region (name numReplicas : string) : string :=
  GoJson.literal name +:+ ":{" +:+ GoJson.literal "numReplicas" +:+ ":"
  +:+ numReplicas +:+ "}".

Definition metaWith (regions : string) : string :=
  "{" +:+ GoJson.literal "serviceManifest" +:+ ":{"
  +:+ GoJson.literal "deploy" +:+ ":{"
  +:+ GoJson.literal "multiRegionConfig" +:+ ":{" +:+ regions +:+ "}}}}".

Definition metaThree : string := metaWith (region "us-east4" "3").
Definition metaZero : string := metaWith (region "us-east4" "0").
Definition metaHalf : string := metaWith (region "us-east4" "0.5").
Definition metaNegative : string := metaWith (region "us-east4" "-2").

(** The same object as [metaThree], encoded once more as a JSON string. *)
Definition metaThreeEncoded : string := GoJson.literal metaThree.


(** The [float64] of a small natural number. *)
Definition float_of (n : Z) : GoFloat.float64 := GoFloat.of_decimal false n 0.

Definition regionConfig (numReplicas : GoFloat.float64) : value :=
  VMap {[ "numReplicas" := VFloat numReplicas ]}.



(** ** Requests *)

(** What [handleUpdate] answers after [UpdateServices] has returned. *)
Definition responseOf (r : slice string * option string) : Response :=
  match r with
  | (_, Some err) =>
      {| StatusCode := StatusInternalServerError;
         Body := ErrorResponse ("Failed to update services: " +:+ err) |}
  | (updatedServices, None) =>
      if (len updatedServices =? 0)%nat then
        {| StatusCode := StatusOK;
           Body := SuccessResponse
                     "No services matched the provided image prefixes"
                     (Slice []) |}
      else
        {| StatusCode := StatusOK;
           Body := SuccessResponse
                     ("Successfully updated " +:+ itoa (len updatedServices)
                      +:+ " service(s)")
                     updatedServices |}
  end.

(** The request passes the four checks of the handler. *)
Definition validRequest (uuid_Parse : string -> bool) (req : UpdateRequest)
  : bool :=
  uuid_Parse (ProjectID req) && uuid_Parse (EnvironmentID req)
  && negb (length (ImagePrefixes req) =? 0)%nat
  && negb (String.eqb (NewVersion req) EmptyString).

Definition hasImage (node : Node) : bool :=
  negb (String.eqb (Source_Image node) EmptyString).

(** A decoder for a body that holds the given request, and one for a body
    that is not JSON. *)
Definition bodyOf (req : UpdateRequest) : string -> result UpdateRequest :=
  fun _ => Ok req.


(** A stand-in for [uuid.Parse]: the 36 bytes of the usual form. *)
Definition sampleUuidParse (s : string) : bool :=
  (String.length s =? 36)%nat.

Definition sampleRequest (prefixes : list string) (version : string)
  : UpdateRequest :=
  {| ProjectID := "550e8400-e29b-41d4-a716-446655440000";
     EnvironmentID := "550e8400-e29b-41d4-a716-446655440001";
     ImagePrefixes := prefixes;
     NewVersion := version |}.

(** ** Images *)

(** The image has a [":"] in it. *)
Fixpoint hasColon (s : string) : bool :=
  match s with
  | EmptyString => false
  | String c rest => Ascii.eqb c ":" || hasColon rest
  end.

(** What the tag substitution keeps of an image: [imageParts[0]]. *)
Definition firstPiece (image : string) : string :=
  hd EmptyString (GoStrings.Split image ":").

(** ** [doRequest], inside

    [doRequest] above is the oracle [respond]. What follows is how the
    code arrives at its result from what the HTTP client gives. The
    request body is marshalled from strings, numbers and booleans, and the
    request is built for a constant method and URL: neither step can
    fail, and both are left out. *)

(** What [httpClient.Do] and [io.ReadAll] give: an error of the transport,
    an error while the body is read, or a status code and a body. *)
Inductive HttpOutcome :=
  | TransportError (err : string)
  | ReadError (err : string)
  | HttpResponse (statusCode : Z) (body : string).

(** [GraphQLResponse]: [data], and the [message] of each of [errors]. *)
Record GraphQLResponse := {
  Data : string;
  Errors : list string
}.

(** [%d] of [fmt.Errorf], for a status code. *)
Definition itoaZ (z : Z) : string :=
  if (z <? 0)%Z then "-" +:+ itoa (Z.to_nat (- z)) else itoa (Z.to_nat z).

(** The result of [doRequest], from the outcome of the HTTP exchange;
    [parseResponse] is [json.Unmarshal(body, &graphqlResp)]. *)
Definition doRequestResult
  (parseResponse : string -> result GraphQLResponse) (o : HttpOutcome)
  : result string :=
  match o with
  | TransportError err => Err ("failed to execute request: " +:+ err)
  | ReadError err => Err ("failed to read response: " +:+ err)
  | HttpResponse statusCode body =>
      if negb (statusCode =? StatusOK)%Z then
        Err ("API returned status " +:+ itoaZ statusCode +:+ ": " +:+ body)
      else
        match parseResponse body with
        | Err err => Err ("failed to unmarshal response: " +:+ err)
        | Ok graphqlResp =>
            match Errors graphqlResp with
            | message :: _ => Err ("GraphQL error: " +:+ message)
            | [] => Ok (Data graphqlResp)
            end
        end
  end.

(** The remote API as [doRequest] sees it, over an HTTP exchange that may
    depend on the calls made before. *)
Definition respondThrough (http : list Call -> Call -> HttpOutcome)
  (parseResponse : string -> result GraphQLResponse)
  : list Call -> Call -> result string :=
  fun h call => doRequestResult parseResponse (http h call).

(** ** Progress of the update loop *)

(** The number of selected services, from the first on, for which both
    remote calls succeed. *)
Fixpoint completed (respond : list Call -> Call -> result string)
  (c : RailwayClient) (environmentID : string)
  (imagePrefixes : list string) (newVersion : string)
  (h : list Call) (matched : list Service) : nat :=
  match matched with
  | [] => 0
  | s :: rest =>
      let calls := callsFor c environmentID imagePrefixes newVersion s in
      if succeeds respond h calls
      then S (completed respond c environmentID imagePrefixes newVersion
                (h ++ calls) rest)
      else 0
  end.

(** What a listed service takes from its node. *)
Definition listedAs (s : Service) : string * string * string :=
  (ID s, Name s, Image s).

Definition listingOf (node : Node) : string * string * string :=
  (ServiceID node, ServiceName node, Source_Image node).

(** A platform whose listing fails. *)
Definition respondDown : list Call -> Call -> result string :=
  fun _ _ => Err "failed to execute request: connection refused".

(** An exchange that answers every request with a status and a body. *)
Definition httpAlways (statusCode : Z) (body : string)
  : list Call -> Call -> HttpOutcome :=
  fun _ _ => HttpResponse statusCode body.

(** An exchange in which the update of one service is answered with
    status 502, and everything else with 200. *)
Definition httpBadGateway (serviceId : string)
  : list Call -> Call -> HttpOutcome :=
  fun _ call =>
    match call with
    | ServiceInstanceUpdate _ id _ _ _ =>
        if String.eqb id serviceId then HttpResponse 502 "Bad Gateway"
        else HttpResponse 200 "{}"
    | _ => HttpResponse 200 "{}"
    end.

(** A decoder of bodies that lists no error. *)
Definition parseData : string -> result GraphQLResponse :=
  fun body => Ok {| Data := body; Errors := [] |}.

(** A decoder for two bodies that hold the same request but for the
    project. *)
Definition bodiesOf (req : UpdateRequest) (otherProject : string)
  : string -> result UpdateRequest :=
  fun body =>
    if String.eqb body "other"
    then Ok {| ProjectID := otherProject; EnvironmentID := EnvironmentID req;
               ImagePrefixes := ImagePrefixes req;
               NewVersion := NewVersion req |}
    else Ok req.

(* ===================================================================== *)
(** * Properties: prefixes and the rewritten image                       *)
(* ===================================================================== *)

Lemma append_cons (a : ascii) (s t : string) :
  String a s +:+ t = String a (s +:+ t).
Proof. reflexivity. Qed.

(** [strings.HasPrefix] compares bytes: [s] starts with [p] exactly when
    [s] is [p] followed by something. *)
Lemma HasPrefix_spec (s p : string) :
  GoStrings.HasPrefix s p = true <-> exists rest, s = p +:+ rest.
Proof.
  unfold GoStrings.HasPrefix. revert s.
  induction p as [|a p IH]; intros s.
  - split; [intros _; exists s; reflexivity | destruct s; reflexivity].
  - destruct s as [|b s]; simpl.
    + split; [discriminate | intros [rest H]; discriminate].
    + destruct (Ascii.ascii_dec a b) as [->|Hne].
      * rewrite IH. split; intros [rest H]; exists rest.
        -- rewrite append_cons. now f_equal.
        -- rewrite append_cons in H. now inversion H.
      * split; [discriminate|].
        intros [rest H]. rewrite append_cons in H. inversion H. congruence.
Qed.

Lemma HasPrefix_empty (s : string) : GoStrings.HasPrefix s EmptyString = true.
Proof. destruct s; reflexivity. Qed.

Lemma matchesPrefix_true (image : string) (prefixes : list string) :
  matchesPrefix image prefixes = true <->
  exists p, In p prefixes /\ GoStrings.HasPrefix image p = true.
Proof.
  induction prefixes as [|q prefixes IH]; simpl.
  - split; [discriminate | intros (p & [] & _)].
  - destruct (GoStrings.HasPrefix image q) eqn:Hq.
    + split; [intros _; exists q; auto | reflexivity].
    + rewrite IH. split.
      * intros (p & Hin & Hp). exists p. auto.
      * intros (p & [<- | Hin] & Hp); [congruence | exists p; auto].
Qed.

(** The loop of [UpdateServices] decides as [matchesPrefix] does. *)
Lemma matchImage_matched (image : string) (prefixes : list string) :
  fst (matchImage image prefixes) = matchesPrefix image prefixes.
Proof.
  induction prefixes as [|q prefixes IH]; simpl; [reflexivity|].
  destruct (GoStrings.HasPrefix image q); [reflexivity | exact IH].
Qed.

(** The prefix the loop records is the first one of the list the image
    starts with. *)
Lemma matchImage_first (image : string) (prefixes : list string) (p : string) :
  matchImage image prefixes = (true, p) <->
  exists before after,
    prefixes = before ++ p :: after
    /\ GoStrings.HasPrefix image p = true
    /\ Forall (fun q => GoStrings.HasPrefix image q = false) before.
Proof.
  induction prefixes as [|q prefixes IH]; simpl.
  - split; [discriminate|].
    intros (before & after & H & _). now destruct before.
  - destruct (GoStrings.HasPrefix image q) eqn:Hq.
    + split.
      * intros [= <-]. exists [], prefixes. auto.
      * intros (before & after & H & Hp & Hall).
        destruct before as [|b before]; simpl in H; inversion H; subst.
        -- reflexivity.
        -- inversion Hall; congruence.
    + rewrite IH. split.
      * intros (before & after & -> & Hp & Hall).
        exists (q :: before), after. auto.
      * intros (before & after & H & Hp & Hall).
        destruct before as [|b before]; simpl in H; inversion H; subst.
        -- congruence.
        -- exists before, after. inversion Hall. auto.
Qed.

(** C6. An image matches a list of prefixes exactly when it starts with
    one of them, byte for byte (so in a case-sensitive way); the update
    loop decides the same and records the first prefix of the list the
    image starts with; the three examples of the specification hold. *)
Theorem matchesPrefix_iff_first_prefix :
  forall (image : string) (prefixes : list string),
    (matchesPrefix image prefixes = true <->
     exists p, In p prefixes /\ exists rest, image = p +:+ rest)
    /\ fst (matchImage image prefixes) = matchesPrefix image prefixes
    /\ (forall p, matchImage image prefixes = (true, p) <->
          exists before after,
            prefixes = before ++ p :: after
            /\ GoStrings.HasPrefix image p = true
            /\ Forall (fun q => GoStrings.HasPrefix image q = false) before)
    /\ matchesPrefix "myapp:v1" ["myapp"] = true
    /\ matchesPrefix "otherapp:v1" ["myapp"] = false
    /\ matchesPrefix "myapp:v1" ["myapp"; "otherapp"] = true
    /\ matchImage "myapp:v1" ["myapp"; "otherapp"] = (true, "myapp")
    /\ matchesPrefix "MyApp:v1" ["myapp"] = false.
Proof.
  intros image prefixes. split; [|split; [|split]].
  - rewrite matchesPrefix_true. split; intros (p & Hin & H); exists p.
    + now rewrite <- HasPrefix_spec.
    + now rewrite HasPrefix_spec.
  - apply matchImage_matched.
  - intros p. apply matchImage_first.
  - repeat split; reflexivity.
Qed.

(** The tag substitution keeps the first piece of the split, whatever the
    number of pieces: everything from the first [":"] on is replaced. *)
Lemma Split_not_nil (s : string) (sep : ascii) : GoStrings.Split s sep <> [].
Proof.
  destruct s as [|c s]; simpl; [discriminate|].
  destruct (Ascii.eqb c sep); [discriminate|].
  destruct (GoStrings.Split s sep); discriminate.
Qed.

Lemma Split_no_sep (s : string) (sep : ascii) :
  length (GoStrings.Split s sep) = 1%nat -> GoStrings.Split s sep = [s].
Proof.
  induction s as [|c s IH]; simpl; [reflexivity|].
  destruct (Ascii.eqb c sep).
  - simpl. intros [= H]. apply length_zero_iff_nil in H.
    now apply Split_not_nil in H.
  - destruct (GoStrings.Split s sep) as [|piece pieces] eqn:E.
    + now apply Split_not_nil in E.
    + simpl. intros [= H]. apply length_zero_iff_nil in H. subst pieces.
      simpl in IH. specialize (IH eq_refl). now inversion IH.
Qed.

Lemma replaceTag_first_piece (image newVersion : string) :
  replaceTag image newVersion =
  hd EmptyString (GoStrings.Split image ":") +:+ ":" +:+ newVersion.
Proof.
  unfold replaceTag.
  destruct (1 <? length (GoStrings.Split image ":"))%nat eqn:E; [reflexivity|].
  apply Nat.ltb_ge in E.
  assert (H : length (GoStrings.Split image ":") = 1%nat).
  { pose proof (Split_not_nil image ":") as Hne.
    destruct (GoStrings.Split image ":"); [congruence | simpl in *; lia]. }
  now rewrite (Split_no_sep _ _ H).
Qed.

(** With at most one [":"] in the image the first and the last separator
    are the same, and the substitution is the one the specification
    describes. *)
Lemma beforeLastColon_Split (s : string) :
  match GoStrings.Split s ":" with
  | [_] => beforeLastColon s = None
  | [head; _] => beforeLastColon s = Some head
  | _ => True
  end.
Proof.
  induction s as [|c s IH]; [reflexivity|].
  pose proof (Split_not_nil s ":") as Hne.
  cbn [GoStrings.Split beforeLastColon].
  destruct (Ascii.eqb c ":") eqn:Ec.
  - destruct (GoStrings.Split s ":") as [|a [|b l]]; [congruence | | exact I].
    now rewrite IH.
  - destruct (GoStrings.Split s ":") as [|a [|b [|b' l]]];
      [congruence | | | exact I]; now rewrite IH.
Qed.

Lemma replaceTag_one_colon (image newVersion : string) :
  (length (GoStrings.Split image ":") <= 2)%nat ->
  replaceTag image newVersion = spec_replaceTag image newVersion.
Proof.
  intros Hlen. rewrite replaceTag_first_piece. unfold spec_replaceTag.
  pose proof (beforeLastColon_Split image) as H.
  pose proof (Split_not_nil image ":") as Hne.
  pose proof (Split_no_sep image ":") as Hone.
  destruct (GoStrings.Split image ":") as [|a [|b [|b' l]]];
    try congruence; simpl in *; try lia.
  - rewrite H. specialize (Hone eq_refl). now inversion Hone.
  - now rewrite H.
Qed.

(** C1. The two examples of the specification hold, but the substitution
    cuts the image at its first [":"], not at its last: for an image whose
    registry has a port, the code produces ["localhost:v2"] where the
    specification describes ["localhost:5000/myapp:v2"], and with the
    prefix ["localhost"] that is the image sent to the platform. *)
Theorem replaceTag_cuts_at_first_colon :
  replaceTag "myapp:v1.0.0" "v2" = "myapp:v2"
  /\ replaceTag "myapp" "v2" = "myapp:v2"
  /\ (forall image newVersion,
        replaceTag image newVersion =
        hd EmptyString (GoStrings.Split image ":") +:+ ":" +:+ newVersion)
  /\ replaceTag "localhost:5000/myapp:v1.0.0" "v2" = "localhost:v2"
  /\ spec_replaceTag "localhost:5000/myapp:v1.0.0" "v2"
     = "localhost:5000/myapp:v2"
  /\ matchImage "localhost:5000/myapp:v1.0.0" ["localhost"]
     = (true, "localhost")
  /\ rewriteImage "localhost:5000/myapp:v1.0.0" "localhost" "v2"
     = "localhost:v2".
Proof.
  split; [reflexivity|]. split; [reflexivity|].
  split; [apply replaceTag_first_piece|].
  repeat split; reflexivity.
Qed.


(* ===================================================================== *)
(** * Properties: the update loop                                        *)
(* ===================================================================== *)

Section UpdateLoop.

Context (respond : list Call -> Call -> result string).
Context (c : RailwayClient) (environmentID : string).
Context (imagePrefixes : list string) (newVersion : string).

Local Abbreviation loop := (updateLoop respond c environmentID imagePrefixes newVersion).
Local Abbreviation selected := (matchedServices imagePrefixes).
Local Abbreviation update := (updateCall c environmentID imagePrefixes newVersion).
Local Abbreviation deploy := (deployCall environmentID).
Local Abbreviation calls := (callsFor c environmentID imagePrefixes newVersion).
Local Abbreviation allCalls := (callsForAll c environmentID imagePrefixes newVersion).

Lemma succeeds_app (h l1 l2 : list Call) :
  succeeds respond h (l1 ++ l2)
  = succeeds respond h l1 && succeeds respond (h ++ l1) l2.
Proof.
  revert h. induction l1 as [|x l1 IH]; intros h; simpl.
  - now rewrite app_nil_r.
  - destruct (respond h x); [|reflexivity].
    rewrite IH. now rewrite <- app_assoc.
Qed.

(** One turn of the loop, by what happens at the service. *)
Ltac loop_turn :=
  unfold callsFor, updateCall, deployCall in *;
  cbn [updateLoop succeeds] in *;
  destruct (matchImage _ _) as [?m ?p];
  cbn [fst snd] in *; subst; cbn [negb];
  unfold bind, UpdateServiceImage, bind, doRequest, ret.

Lemma loop_skip (s : Service) (rest : list Service) (u : slice string)
  (h : list Call) :
  fst (matchImage (Image s) imagePrefixes) = false ->
  loop (s :: rest) u h = loop rest u h.
Proof. intros Hm. loop_turn. reflexivity. Qed.

Lemma loop_update_fails (s : Service) (rest : list Service)
  (u : slice string) (h : list Call) (e : string) :
  fst (matchImage (Image s) imagePrefixes) = true ->
  respond h (update s) = Err e ->
  loop (s :: rest) u h = ((u, Some (updateError s e)), h ++ [update s]).
Proof. intros Hm He. loop_turn. rewrite He. reflexivity. Qed.

Lemma loop_deploy_fails (s : Service) (rest : list Service)
  (u : slice string) (h : list Call) (d e : string) :
  fst (matchImage (Image s) imagePrefixes) = true ->
  respond h (update s) = Ok d ->
  respond (h ++ [update s]) (deploy s) = Err e ->
  loop (s :: rest) u h = ((u, Some (deployError s e)), h ++ calls s).
Proof.
  intros Hm Hd He. loop_turn. rewrite Hd, He.
  now rewrite <- app_assoc.
Qed.

Lemma loop_both_succeed (s : Service) (rest : list Service)
  (u : slice string) (h : list Call) :
  fst (matchImage (Image s) imagePrefixes) = true ->
  succeeds respond h (calls s) = true ->
  loop (s :: rest) u h = loop rest (append u (Name s)) (h ++ calls s).
Proof.
  intros Hm Hs. loop_turn.
  destruct (respond h _) as [d|]; [|discriminate].
  destruct (respond (h ++ _) _) as [d'|]; [|discriminate].
  now rewrite <- app_assoc.
Qed.

Lemma allCalls_cons (s : Service) (l : list Service) :
  allCalls (s :: l) = calls s ++ allCalls l.
Proof. reflexivity. Qed.

Lemma selected_cons (s : Service) (l : list Service) :
  selected (s :: l)
  = if fst (matchImage (Image s) imagePrefixes) then s :: selected l
    else selected l.
Proof. reflexivity. Qed.

(** Every remote call succeeds: every selected service is updated and
    redeployed, in the order of the list. *)
Lemma loop_all_succeed (services : list Service) (names : list string)
  (h : list Call) :
  succeeds respond h (allCalls (selected services)) = true ->
  loop services (Slice names) h
  = ((Slice (names ++ map Name (selected services)), None),
     h ++ allCalls (selected services)).
Proof.
  revert names h. induction services as [|s services IH]; intros names h Hs.
  - simpl. unfold ret. now rewrite !app_nil_r.
  - rewrite selected_cons in *.
    destruct (fst (matchImage (Image s) imagePrefixes)) eqn:Hm.
    + rewrite allCalls_cons, succeeds_app in Hs.
      apply andb_prop in Hs as [Hs1 Hs2].
      rewrite (loop_both_succeed _ _ _ _ Hm Hs1). cbn [append].
      rewrite (IH _ _ Hs2), allCalls_cons. cbn [map].
      now rewrite <- !app_assoc.
    + rewrite (loop_skip _ _ _ _ Hm). now apply IH.
Qed.

(** The first failure is at the service [failing], after the services
    [done] were updated and redeployed: the loop stops there. [attempt]
    is what was called for [failing] and [err] the error returned. *)
Lemma loop_first_failure (services done later : list Service)
  (failing : Service) (names : list string) (h : list Call)
  (attempt : list Call) (err : string) :
  selected services = done ++ failing :: later ->
  succeeds respond h (allCalls done) = true ->
  (forall rest u,
     loop (failing :: rest) u (h ++ allCalls done)
     = ((u, Some err), (h ++ allCalls done) ++ attempt)) ->
  loop services (Slice names) h
  = ((Slice (names ++ map Name done), Some err),
     h ++ allCalls done ++ attempt).
Proof.
  revert done names h.
  induction services as [|s services IH]; intros done names h Hsel Hs Hfail.
  - now destruct done.
  - rewrite selected_cons in Hsel.
    destruct (fst (matchImage (Image s) imagePrefixes)) eqn:Hm.
    + destruct done as [|s' done]; simpl in Hsel; inversion Hsel; subst.
      * specialize (Hfail services (Slice names)).
        cbn [callsForAll flat_map map] in *.
        rewrite !app_nil_r in *. exact Hfail.
      * rewrite allCalls_cons, succeeds_app in Hs.
        apply andb_prop in Hs as [Hs1 Hs2].
        rewrite (loop_both_succeed _ _ _ _ Hm Hs1). cbn [append].
        rewrite (IH done _ _ H1 Hs2).
        -- rewrite allCalls_cons. cbn [map]. now rewrite <- !app_assoc.
        -- intros rest u. rewrite <- app_assoc, <- allCalls_cons.
           apply Hfail.
    + rewrite (loop_skip _ _ _ _ Hm). now apply IH.
Qed.

(** The loop only adds calls to the history. *)
Lemma loop_history_extends (services : list Service) (u : slice string)
  (h : list Call) :
  exists tail, snd (loop services u h) = h ++ tail.
Proof.
  revert u h. induction services as [|s services IH]; intros u h.
  - exists []. simpl. now rewrite app_nil_r.
  - destruct (fst (matchImage (Image s) imagePrefixes)) eqn:Hm.
    + destruct (respond h (update s)) as [d|e] eqn:Hu.
      * destruct (respond (h ++ [update s]) (deploy s)) as [d'|e] eqn:Hd.
        -- rewrite loop_both_succeed; [|assumption|].
           ++ destruct (IH (append u (Name s)) (h ++ calls s)) as [tail Ht].
              exists (calls s ++ tail). now rewrite Ht, <- app_assoc.
           ++ unfold callsFor. cbn [succeeds]. now rewrite Hu, Hd.
        -- rewrite (loop_deploy_fails _ _ _ _ d e); try assumption.
           now exists (calls s).
      * rewrite (loop_update_fails _ _ _ _ e); try assumption.
        now exists [update s].
    + rewrite loop_skip by assumption. apply IH.
Qed.


End UpdateLoop.

(** After a successful listing, [UpdateServices] is the loop over the
    listed services. *)
Lemma UpdateServices_listed
  (respond : list Call -> Call -> result string)
  (decodeEnvironment : string -> result (list Node))
  (order : nat -> RangeOrder) (c : RailwayClient)
  (environmentID : string) (imagePrefixes : list string)
  (newVersion : string) (h : list Call) (data : string) (nodes : list Node) :
  respond h (EnvironmentQuery environmentID) = Ok data ->
  decodeEnvironment data = Ok nodes ->
  UpdateServices respond decodeEnvironment order c environmentID
    imagePrefixes newVersion h
  = updateLoop respond c environmentID imagePrefixes newVersion
      (servicesOf order 0 nodes) (Slice [])
      (h ++ [EnvironmentQuery environmentID]).
Proof.
  intros Hq Hd. unfold UpdateServices, GetServices, bind, doRequest.
  rewrite Hq, Hd. reflexivity.
Qed.


(** C3. After a successful listing, [UpdateServices] calls, for the
    selected services in the order of the listing, the update of the image
    source and then the redeploy. When every call succeeds it returns the
    names of all selected services. At the first call that fails it stops:
    no call is made after it (none for later services, none that would
    undo an earlier update), and it returns the names of the services
    updated before, with an error that names the failing service. In
    particular, with three selected services and a failure of either call
    at the second, it returns an error and the name of the first only. *)
Theorem UpdateServices_stops_at_first_failure :
  forall (respond : list Call -> Call -> result string)
    (decodeEnvironment : string -> result (list Node))
    (order : nat -> RangeOrder) (c : RailwayClient)
    (environmentID : string) (imagePrefixes : list string)
    (newVersion : string) (h : list Call) (data : string)
    (nodes : list Node),
    respond h (EnvironmentQuery environmentID) = Ok data ->
    decodeEnvironment data = Ok nodes ->
    let matched := matchedServices imagePrefixes (servicesOf order 0 nodes) in
    let h0 := h ++ [EnvironmentQuery environmentID] in
    let run := UpdateServices respond decodeEnvironment order c environmentID
                 imagePrefixes newVersion h in
    let update := updateCall c environmentID imagePrefixes newVersion in
    let calls := callsForAll c environmentID imagePrefixes newVersion in
    (succeeds respond h0 (calls matched) = true ->
     run = ((Slice (map Name matched), None), h0 ++ calls matched))
    /\ (forall (done : list Service) (failing : Service)
          (later : list Service),
          matched = done ++ failing :: later ->
          succeeds respond h0 (calls done) = true ->
          let h1 := h0 ++ calls done in
          (forall e,
             respond h1 (update failing) = Err e ->
             run = ((Slice (map Name done), Some (updateError failing e)),
                    h1 ++ [update failing]))
          /\ (forall d e,
                respond h1 (update failing) = Ok d ->
                respond (h1 ++ [update failing])
                  (deployCall environmentID failing) = Err e ->
                run = ((Slice (map Name done), Some (deployError failing e)),
                       h1 ++ [update failing;
                              deployCall environmentID failing])))
    /\ (forall (s1 s2 s3 : Service) (e : string),
          matched = [s1; s2; s3] ->
          succeeds respond h0 (calls [s1]) = true ->
          respond (h0 ++ calls [s1]) (update s2) = Err e
          \/ ((exists d, respond (h0 ++ calls [s1]) (update s2) = Ok d)
              /\ respond (h0 ++ calls [s1] ++ [update s2])
                   (deployCall environmentID s2) = Err e) ->
          exists err, fst run = (Slice [Name s1], Some err)).
Proof.
  intros respond decodeEnvironment order c environmentID imagePrefixes
    newVersion h data nodes Hq Hd matched h0 run update calls.
  subst run. rewrite (UpdateServices_listed _ _ _ _ _ _ _ _ _ _ Hq Hd).
  fold h0.
  assert (Hstop :
    forall done failing later,
      matched = done ++ failing :: later ->
      succeeds respond h0 (calls done) = true ->
      (forall e,
         respond (h0 ++ calls done) (update failing) = Err e ->
         updateLoop respond c environmentID imagePrefixes newVersion
           (servicesOf order 0 nodes) (Slice []) h0
         = ((Slice (map Name done), Some (updateError failing e)),
            (h0 ++ calls done) ++ [update failing]))
      /\ (forall d e,
            respond (h0 ++ calls done) (update failing) = Ok d ->
            respond ((h0 ++ calls done) ++ [update failing])
              (deployCall environmentID failing) = Err e ->
            updateLoop respond c environmentID imagePrefixes newVersion
              (servicesOf order 0 nodes) (Slice []) h0
            = ((Slice (map Name done), Some (deployError failing e)),
               (h0 ++ calls done)
               ++ [update failing; deployCall environmentID failing]))).
  { intros done failing later Hsel Hs.
    assert (Hm : fst (matchImage (Image failing) imagePrefixes) = true).
    { assert (Hin : In failing matched) by (rewrite Hsel; apply in_elt).
      apply filter_In in Hin. tauto. }
    split.
    - intros e He. rewrite <- app_assoc.
      apply (loop_first_failure respond c environmentID imagePrefixes
               newVersion _ done later failing [] h0 _ _ Hsel Hs).
      intros rest u. now apply loop_update_fails.
    - intros d e Hu He. rewrite <- app_assoc.
      apply (loop_first_failure respond c environmentID imagePrefixes
               newVersion _ done later failing [] h0 _ _ Hsel Hs).
      intros rest u. now apply (loop_deploy_fails _ _ _ _ _ _ _ _ _ d e). }
  split; [|split].
  - intros Hs. now apply loop_all_succeed.
  - exact Hstop.
  - intros s1 s2 s3 e Hsel Hs Hfail.
    destruct (Hstop [s1] s2 [s3] Hsel Hs) as [Hupd Hdep].
    destruct Hfail as [He | [[d Hu] He]].
    + rewrite (Hupd e He). now eexists.
    + rewrite app_assoc in He. rewrite (Hdep d e Hu He). now eexists.
Qed.

(** Three matching services, the platform refusing the update of the
    second: one service was updated, and the error names the second. *)
Lemma UpdateServices_second_of_three_fails :
  UpdateServices (respondRefusing "s2") (environmentOf threeNodes) keyOrder
    sampleClient "env" ["myapp"] "v2" []
  = ((Slice ["web"],
      Some ("failed to update service worker: "
            +:+ "failed to update service instance: "
            +:+ "GraphQL error: not authorized")),
     [EnvironmentQuery "env";
      ServiceInstanceUpdate "env" "s1" "myapp:v2" 1 None;
      ServiceInstanceDeploy "s1" "env" false;
      ServiceInstanceUpdate "env" "s2" "myapp-worker:v2" 1 None]).
Proof.
  exact (proj1
           (proj1
              (proj2
                 (UpdateServices_stops_at_first_failure
                    (respondRefusing "s2") (environmentOf threeNodes) keyOrder
                    sampleClient "env" ["myapp"] "v2" [] "{}" threeNodes
                    eq_refl eq_refl))
              [{| ID := "s1"; Name := "web"; Image := "myapp:v1.0.0";
                  NumReplicas := 1 |}]
              {| ID := "s2"; Name := "worker";
                 Image := "myapp-worker:v1.0.0"; NumReplicas := 1 |}
              [{| ID := "s3"; Name := "cron"; Image := "myapp-cron:v1.0.0";
                  NumReplicas := 1 |}]
              eq_refl eq_refl)
           "GraphQL error: not authorized" eq_refl).
Defined.


(* ===================================================================== *)
(** * Properties: the replica count                                      *)
(* ===================================================================== *)

(** What the sample documents decode to. *)
Lemma decode_metaThree :
  GoJson.decode metaThree
  = Some (VMap {[ "serviceManifest" :=
            VMap {[ "deploy" :=
              VMap {[ "multiRegionConfig" :=
                VMap {[ "us-east4" := regionConfig (float_of 3) ]} ]} ]} ]})
  /\ String.length metaThree = 83%nat
  /\ GoFloat.to_int (float_of 3) = 3%Z.
Proof. vm_compute. repeat split; reflexivity. Qed.

Lemma regionsOf_metaThree :
  regionsOf metaThree = Some {[ "us-east4" := regionConfig (float_of 3) ]}.
Proof. vm_compute. reflexivity. Qed.

Lemma regionsOf_metaThreeEncoded :
  regionsOf metaThreeEncoded = regionsOf metaThree.
Proof. vm_compute. reflexivity. Qed.

Lemma regionsOf_metaZero :
  regionsOf metaZero = Some {[ "us-east4" := regionConfig (S754_zero false) ]}.
Proof. vm_compute. reflexivity. Qed.

Lemma regionsOf_metaHalf :
  regionsOf metaHalf
  = Some {[ "us-east4" := regionConfig (GoFloat.of_decimal false 5 (-1)) ]}.
Proof. vm_compute. reflexivity. Qed.

Lemma regionsOf_metaNegative :
  regionsOf metaNegative
  = Some {[ "us-east4" := regionConfig (GoFloat.of_decimal true 2 0) ]}.
Proof. vm_compute. reflexivity. Qed.


(** The function, by the regions it reaches. *)
Lemma resolveReplicaCount_regions (order : RangeOrder) (name raw : string) :
  resolveReplicaCount order name (deployed raw)
  = match regionsOf raw with
    | Some m =>
        match firstValidRegion (order m) with
        | Some (_, n) => n
        | None => 1%Z
        end
    | None => 1%Z
    end.
Proof.
  unfold resolveReplicaCount, regionsOf, deployed. cbn [Meta].
  destruct (decodeMeta raw) as [meta|]; [|reflexivity].
  now destruct (multiRegionConfigOf meta).
Qed.




(** A map with one entry is visited in one way. *)
Lemma range_singleton (order : RangeOrder) (k : string) (v : value) :
  range_ok order -> order {[ k := v ]} = [(k, v)].
Proof.
  intros Hok. specialize (Hok {[ k := v ]}).
  rewrite map_to_list_singleton in Hok.
  now apply Permutation_singleton_r in Hok.
Qed.


Lemma range_ok_keyOrder : range_ok map_to_list.
Proof. intros m. reflexivity. Qed.


(** A [meta] that cannot be decoded, in either of the two ways. *)
Lemma decodeMeta_undecodable (raw : string) :
  GoJson.decode raw = None -> decodeMeta raw = None.
Proof.
  intros H. unfold decodeMeta, GoJson.Unmarshal_map, GoJson.Unmarshal_string.
  now rewrite H.
Qed.

(** A [meta] that is a string containing an object is decoded as the
    object is. *)
Lemma decodeMeta_encoded (raw inner : string) :
  GoJson.Unmarshal_string raw = Some inner ->
  is_Some (GoJson.Unmarshal_map inner) ->
  decodeMeta raw = decodeMeta inner.
Proof.
  unfold decodeMeta, GoJson.Unmarshal_string, GoJson.Unmarshal_map.
  intros Hs [m Hm].
  destruct (GoJson.decode raw) as [[| | |s| |]|] eqn:E; try discriminate.
  - injection Hs as <-. vm_compute in Hm. discriminate.
  - injection Hs as ->. now rewrite Hm.
Qed.

(** C2. The replica count is 3 for the object of the specification, 1
    when there is no deployment or no [meta], 1 when the only region
    reports [numReplicas] 0, the same as for the object when [meta] is a
    JSON string that contains the object (so 3 for the sample), and 1 when
    [meta] cannot be decoded. *)
Theorem resolveReplicaCount_cases :
  forall (order : RangeOrder) (name : string),
    range_ok order ->
    resolveReplicaCount order name (deployed metaThree) = 3%Z
    /\ resolveReplicaCount order name None = 1%Z
    /\ resolveReplicaCount order name (Some {| Meta := None |}) = 1%Z
    /\ resolveReplicaCount order name (deployed metaZero) = 1%Z
    /\ GoJson.Unmarshal_string metaThreeEncoded = Some metaThree
    /\ resolveReplicaCount order name (deployed metaThreeEncoded)
       = resolveReplicaCount order name (deployed metaThree)
    /\ (forall raw inner,
          GoJson.Unmarshal_string raw = Some inner ->
          is_Some (GoJson.Unmarshal_map inner) ->
          resolveReplicaCount order name (deployed raw)
          = resolveReplicaCount order name (deployed inner))
    /\ (forall raw,
          GoJson.decode raw = None ->
          resolveReplicaCount order name (deployed raw) = 1%Z)
    /\ (forall raw,
          decodeMeta raw = None ->
          resolveReplicaCount order name (deployed raw) = 1%Z)
    /\ resolveReplicaCount order name (deployed "not-json") = 1%Z.
Proof.
  intros order name Hok.
  assert (Hnone : forall raw, decodeMeta raw = None ->
            resolveReplicaCount order name (deployed raw) = 1%Z).
  { intros raw H. rewrite resolveReplicaCount_regions. unfold regionsOf.
    now rewrite H. }
  assert (Hthree : resolveReplicaCount order name (deployed metaThree) = 3%Z).
  { rewrite resolveReplicaCount_regions, regionsOf_metaThree.
    now rewrite (range_singleton _ _ _ Hok). }
  split; [exact Hthree|].
  split; [reflexivity|].
  split; [reflexivity|].
  split.
  { rewrite resolveReplicaCount_regions, regionsOf_metaZero.
    now rewrite (range_singleton _ _ _ Hok). }
  split; [vm_compute; reflexivity|].
  split.
  { rewrite !resolveReplicaCount_regions.
    now rewrite regionsOf_metaThreeEncoded. }
  split.
  { intros raw inner Hs Hm. rewrite !resolveReplicaCount_regions.
    unfold regionsOf. now rewrite (decodeMeta_encoded raw inner Hs Hm). }
  split.
  { intros raw H. apply Hnone. now apply decodeMeta_undecodable. }
  split; [exact Hnone|].
  now apply Hnone.
Qed.

(** The cases of the specification, on a runtime that visits maps in the
    order of their keys. *)
Lemma resolveReplicaCount_cases_keyOrder :
  resolveReplicaCount map_to_list "web" (deployed metaThree) = 3%Z
  /\ resolveReplicaCount map_to_list "web" None = 1%Z
  /\ resolveReplicaCount map_to_list "web" (deployed metaZero) = 1%Z
  /\ resolveReplicaCount map_to_list "web" (deployed metaThreeEncoded) = 3%Z
  /\ resolveReplicaCount map_to_list "web" (deployed "not-json") = 1%Z.
Proof.
  pose proof (resolveReplicaCount_cases map_to_list "web" range_ok_keyOrder)
    as (H3 & Hnil & _ & H0 & _ & Henc & _ & _ & _ & Hbad).
  rewrite H3 in Henc. exact (conj H3 (conj Hnil (conj H0 (conj Henc Hbad)))).
Defined.

(** C9. A fractional [numReplicas] between 0 and 1 passes the test
    [numReplicas > 0] and is then truncated: the replica count is 0. (A
    negative [numReplicas] does give the default, 1.) *)
Theorem resolveReplicaCount_fraction_gives_zero :
  forall (order : RangeOrder) (name : string),
    range_ok order ->
    resolveReplicaCount order name (deployed metaHalf) = 0%Z
    /\ resolveReplicaCount order name (deployed metaNegative) = 1%Z.
Proof.
  intros order name Hok. split.
  - rewrite resolveReplicaCount_regions, regionsOf_metaHalf.
    now rewrite (range_singleton _ _ _ Hok).
  - rewrite resolveReplicaCount_regions, regionsOf_metaNegative.
    now rewrite (range_singleton _ _ _ Hok).
Qed.

Lemma resolveReplicaCount_fraction_keyOrder :
  resolveReplicaCount map_to_list "web" (deployed metaHalf) = 0%Z
  /\ resolveReplicaCount map_to_list "web" (deployed metaNegative) = 1%Z.
Proof.
  exact (resolveReplicaCount_fraction_gives_zero map_to_list "web"
           range_ok_keyOrder).
Defined.




(* ===================================================================== *)
(** * Properties: the handler                                            *)
(* ===================================================================== *)

Section HandlerProperties.

Context (respond : list Call -> Call -> result string).
Context (decodeEnvironment : string -> result (list Node)).
Context (order : nat -> RangeOrder).
Context (decodeRequest : string -> result UpdateRequest).
Context (uuid_Parse : string -> bool).
Context (c : RailwayClient).

Local Abbreviation handle :=
  (handleUpdate respond decodeEnvironment order decodeRequest uuid_Parse c).
Local Abbreviation updateServices :=
  (UpdateServices respond decodeEnvironment order c).


(** A request that passes them is handed to [UpdateServices]. *)
Lemma handle_valid (body : string) (req : UpdateRequest) (h : list Call) :
  decodeRequest body = Ok req ->
  validRequest uuid_Parse req = true ->
  handle "PUT" body h
  = (responseOf
       (fst (updateServices (EnvironmentID req) (ImagePrefixes req)
               (NewVersion req) h)),
     snd (updateServices (EnvironmentID req) (ImagePrefixes req)
            (NewVersion req) h)).
Proof.
  intros Hd Hv. unfold handleUpdate, validRequest in *.
  rewrite Hd.
  apply andb_prop in Hv as [Hv Hver]. apply andb_prop in Hv as [Hv Hpre].
  apply andb_prop in Hv as [Hp He].
  rewrite Hp, He. apply negb_true_iff in Hpre, Hver. rewrite Hpre, Hver.
  change (negb (String.eqb "PUT" "PUT")) with false. cbv iota. cbn [negb].
  unfold bind.
  destruct (UpdateServices _ _ _ _ _ _ _ h) as [[u [err|]] h']; cbn [fst snd];
    unfold ret, responseOf; [reflexivity|].
  now destruct (len u =? 0)%nat.
Qed.

(** When [UpdateServices] returns an error the answer is 500 with the
    message of the error; the names of the services updated before the
    failure are not part of it. *)
Lemma handle_remote_failure (body : string) (req : UpdateRequest)
  (h : list Call) (updated : slice string) (err : string) :
  decodeRequest body = Ok req ->
  validRequest uuid_Parse req = true ->
  fst (updateServices (EnvironmentID req) (ImagePrefixes req)
         (NewVersion req) h) = (updated, Some err) ->
  fst (handle "PUT" body h)
  = {| StatusCode := 500;
       Body := ErrorResponse ("Failed to update services: " +:+ err) |}.
Proof.
  intros Hd Hv Hr. rewrite (handle_valid body req h Hd Hv). cbn [fst].
  now rewrite Hr.
Qed.

(** The listed services are the nodes with an image, in their order. *)
Lemma servicesOf_names (i : nat) (nodes : list Node) :
  map Name (servicesOf order i nodes)
  = map ServiceName (List.filter hasImage nodes).
Proof.
  revert i. induction nodes as [|node nodes IH]; intros i; [reflexivity|].
  cbn [servicesOf List.filter]. unfold hasImage at 1.
  destruct (negb (String.eqb (Source_Image node) EmptyString));
    cbn [map Name]; now rewrite IH.
Qed.

Lemma servicesOf_images (i : nat) (nodes : list Node) :
  map Image (servicesOf order i nodes)
  = map Source_Image (List.filter hasImage nodes).
Proof.
  revert i. induction nodes as [|node nodes IH]; intros i; [reflexivity|].
  cbn [servicesOf List.filter]. unfold hasImage at 1.
  destruct (negb (String.eqb (Source_Image node) EmptyString));
    cbn [map Image]; now rewrite IH.
Qed.

Lemma matchedServices_none (prefixes : list string) (services : list Service) :
  Forall (fun image => matchesPrefix image prefixes = false)
    (map Image services) ->
  matchedServices prefixes services = [].
Proof.
  induction services as [|s services IH]; [reflexivity|].
  cbn [map]. intros H. inversion H as [|? ? Hs Hrest]; subst.
  unfold matchedServices in *. cbn [List.filter].
  rewrite matchImage_matched, Hs. now apply IH.
Qed.

Lemma matchedServices_all (prefixes : list string) (services : list Service) :
  Forall (fun image => matchesPrefix image prefixes = true)
    (map Image services) ->
  matchedServices prefixes services = services.
Proof.
  induction services as [|s services IH]; [reflexivity|].
  cbn [map]. intros H. inversion H as [|? ? Hs Hrest]; subst.
  unfold matchedServices in *. cbn [List.filter].
  rewrite matchImage_matched, Hs. f_equal. now apply IH.
Qed.

(** [UpdateServices] starts with the query of the environment. *)
Lemma UpdateServices_first_call (environmentID : string)
  (imagePrefixes : list string) (newVersion : string) (h : list Call) :
  exists tail,
    snd (updateServices environmentID imagePrefixes newVersion h)
    = h ++ EnvironmentQuery environmentID :: tail.
Proof.
  unfold UpdateServices, GetServices, bind, doRequest.
  destruct (respond h (EnvironmentQuery environmentID)) as [data|err].
  - destruct (decodeEnvironment data) as [nodes|err]; unfold ret.
    + destruct (loop_history_extends respond c environmentID imagePrefixes
                  newVersion (servicesOf order 0 nodes) (Slice [])
                  (h ++ [EnvironmentQuery environmentID])) as [tail Ht].
      exists tail. rewrite Ht. now rewrite <- app_assoc.
    + now exists [].
  - now exists [].
Qed.


(** C7. A valid PUT request whose prefixes match no listed service, the
    listing having succeeded, is answered 200 with the message that no
    service matched and with an empty (not [nil]) list of updated
    services; the listing is the only remote call. *)
Theorem handleUpdate_no_service_matches :
  forall (body : string) (req : UpdateRequest) (h : list Call)
    (data : string) (nodes : list Node),
    decodeRequest body = Ok req ->
    validRequest uuid_Parse req = true ->
    respond h (EnvironmentQuery (EnvironmentID req)) = Ok data ->
    decodeEnvironment data = Ok nodes ->
    Forall (fun node => matchesPrefix (Source_Image node) (ImagePrefixes req)
                        = false)
      (List.filter hasImage nodes) ->
    handle "PUT" body h
    = ({| StatusCode := 200;
          Body := SuccessResponse
                    "No services matched the provided image prefixes"
                    (Slice []) |},
       h ++ [EnvironmentQuery (EnvironmentID req)]).
Proof.
  intros body req h data nodes Hd Hv Hq Hn Hnone.
  rewrite (handle_valid body req h Hd Hv).
  rewrite (UpdateServices_listed _ _ _ _ _ _ _ _ _ _ Hq Hn).
  assert (Hsel : matchedServices (ImagePrefixes req) (servicesOf order 0 nodes)
                 = []).
  { apply matchedServices_none. rewrite servicesOf_images.
    now apply Forall_map. }
  rewrite loop_all_succeed; rewrite Hsel; [|reflexivity].
  cbn. now rewrite app_nil_r.
Qed.

(** C10, amended. A request that is valid but for an empty string among
    its prefixes passes the checks (the environment is queried); every
    image matches its prefixes, so every listed service (every node with
    an image) is selected; and when every remote call succeeds all of
    them are updated, in the order of the listing. *)
Theorem handleUpdate_empty_prefix_selects_all :
  forall (body : string) (req : UpdateRequest) (h : list Call),
    decodeRequest body = Ok req ->
    uuid_Parse (ProjectID req) = true ->
    uuid_Parse (EnvironmentID req) = true ->
    NewVersion req <> EmptyString ->
    In EmptyString (ImagePrefixes req) ->
    validRequest uuid_Parse req = true
    /\ (exists tail,
          snd (handle "PUT" body h)
          = h ++ EnvironmentQuery (EnvironmentID req) :: tail)
    /\ (forall image, matchesPrefix image (ImagePrefixes req) = true)
    /\ (forall data nodes,
          respond h (EnvironmentQuery (EnvironmentID req)) = Ok data ->
          decodeEnvironment data = Ok nodes ->
          let services := servicesOf order 0 nodes in
          let calls := callsForAll c (EnvironmentID req) (ImagePrefixes req)
                         (NewVersion req) services in
          matchedServices (ImagePrefixes req) services = services
          /\ map Name services = map ServiceName (List.filter hasImage nodes)
          /\ (succeeds respond (h ++ [EnvironmentQuery (EnvironmentID req)])
                calls = true ->
              exists msg,
                handle "PUT" body h
                = ({| StatusCode := 200;
                      Body := SuccessResponse msg (Slice (map Name services)) |},
                   h ++ [EnvironmentQuery (EnvironmentID req)] ++ calls))).
Proof.
  intros body req h Hd Hp He Hver Hin.
  assert (Hv : validRequest uuid_Parse req = true).
  { unfold validRequest. rewrite Hp, He. cbn [andb].
    apply andb_true_intro. split; apply negb_true_iff.
    - destruct (ImagePrefixes req); [destruct Hin | reflexivity].
    - now apply String.eqb_neq. }
  assert (Hall : forall image, matchesPrefix image (ImagePrefixes req) = true).
  { intros image. apply matchesPrefix_true. exists EmptyString.
    split; [exact Hin | apply HasPrefix_empty]. }
  split; [exact Hv|]. split; [|split; [exact Hall|]].
  - rewrite (handle_valid body req h Hd Hv). cbn [snd].
    apply UpdateServices_first_call.
  - intros data nodes Hq Hn services calls.
    assert (Hsel : matchedServices (ImagePrefixes req) services = services).
    { apply matchedServices_all. apply Forall_forall. intros image _.
      apply Hall. }
    split; [exact Hsel|]. split; [apply servicesOf_names|].
    intros Hs. rewrite (handle_valid body req h Hd Hv).
    rewrite (UpdateServices_listed _ _ _ _ _ _ _ _ _ _ Hq Hn).
    fold services. rewrite loop_all_succeed; rewrite Hsel; [|exact Hs].
    cbn [fst snd app responseOf len].
    fold calls. rewrite <- app_assoc.
    destruct (length (map Name services) =? 0)%nat eqn:E; eexists.
    + apply Nat.eqb_eq, length_zero_iff_nil in E. rewrite E. reflexivity.
    + reflexivity.
Qed.

End HandlerProperties.


(** A request whose prefix matches none of the three services. *)
Lemma handleUpdate_no_service_matches_sample :
  handleUpdate respondOk (environmentOf threeNodes) keyOrder
    (bodyOf (sampleRequest ["otherapp"] "v2")) sampleUuidParse sampleClient
    "PUT" "body" []
  = ({| StatusCode := 200;
        Body := SuccessResponse
                  "No services matched the provided image prefixes"
                  (Slice []) |},
     [EnvironmentQuery "550e8400-e29b-41d4-a716-446655440001"]).
Proof.
  apply (handleUpdate_no_service_matches respondOk (environmentOf threeNodes)
           keyOrder (bodyOf (sampleRequest ["otherapp"] "v2")) sampleUuidParse
           sampleClient "body" (sampleRequest ["otherapp"] "v2") [] "{}"
           threeNodes eq_refl eq_refl eq_refl eq_refl).
  repeat constructor.
Defined.


(** The empty prefix on a platform where every call succeeds: the three
    services are updated. *)
Lemma handleUpdate_empty_prefix_sample :
  exists msg,
    handleUpdate respondOk (environmentOf threeNodes) keyOrder
      (bodyOf (sampleRequest [EmptyString] "v2")) sampleUuidParse sampleClient
      "PUT" "body" []
    = ({| StatusCode := 200;
          Body := SuccessResponse msg (Slice ["web"; "worker"; "cron"]) |},
       [EnvironmentQuery "550e8400-e29b-41d4-a716-446655440001";
        ServiceInstanceUpdate "550e8400-e29b-41d4-a716-446655440001" "s1"
          "myapp:v2" 1 None;
        ServiceInstanceDeploy "s1" "550e8400-e29b-41d4-a716-446655440001" false;
        ServiceInstanceUpdate "550e8400-e29b-41d4-a716-446655440001" "s2"
          "myapp-worker:v2" 1 None;
        ServiceInstanceDeploy "s2" "550e8400-e29b-41d4-a716-446655440001" false;
        ServiceInstanceUpdate "550e8400-e29b-41d4-a716-446655440001" "s3"
          "myapp-cron:v2" 1 None;
        ServiceInstanceDeploy "s3" "550e8400-e29b-41d4-a716-446655440001"
          false]).
Proof.
  assert (Hne : NewVersion (sampleRequest [EmptyString] "v2") <> EmptyString)
    by discriminate.
  exact (proj2 (proj2 (proj2 (proj2 (proj2
           (handleUpdate_empty_prefix_selects_all respondOk
              (environmentOf threeNodes) keyOrder
              (bodyOf (sampleRequest [EmptyString] "v2")) sampleUuidParse
              sampleClient "body" (sampleRequest [EmptyString] "v2") []
              eq_refl eq_refl eq_refl Hne (or_introl eq_refl))))
           "{}" threeNodes eq_refl eq_refl)) eq_refl).
Defined.

(** The empty prefix on a platform that refuses the update of the first
    service: the request is valid and every service is selected, but none
    is updated, and the answer is an error. *)
Lemma handleUpdate_empty_prefix_remote_failure :
  In EmptyString (ImagePrefixes (sampleRequest [EmptyString] "v2"))
  /\ validRequest sampleUuidParse (sampleRequest [EmptyString] "v2") = true
  /\ map hasImage threeNodes = [true; true; true]
  /\ matchedServices [EmptyString] (servicesOf keyOrder 0 threeNodes)
     = servicesOf keyOrder 0 threeNodes
  /\ UpdateServices (respondRefusing "s1") (environmentOf threeNodes) keyOrder
       sampleClient "550e8400-e29b-41d4-a716-446655440001" [EmptyString] "v2" []
     = ((Slice [],
         Some ("failed to update service web: "
               +:+ "failed to update service instance: "
               +:+ "GraphQL error: not authorized")),
        [EnvironmentQuery "550e8400-e29b-41d4-a716-446655440001";
         ServiceInstanceUpdate "550e8400-e29b-41d4-a716-446655440001" "s1"
           "myapp:v2" 1 None])
  /\ handleUpdate (respondRefusing "s1") (environmentOf threeNodes) keyOrder
       (bodyOf (sampleRequest [EmptyString] "v2")) sampleUuidParse sampleClient
       "PUT" "body" []
     = ({| StatusCode := 500;
           Body := ErrorResponse
                     ("Failed to update services: "
                      +:+ "failed to update service web: "
                      +:+ "failed to update service instance: "
                      +:+ "GraphQL error: not authorized") |},
        [EnvironmentQuery "550e8400-e29b-41d4-a716-446655440001";
         ServiceInstanceUpdate "550e8400-e29b-41d4-a716-446655440001" "s1"
           "myapp:v2" 1 None]).
Proof.
  split; [left; reflexivity|].
  repeat split; vm_compute; reflexivity.
Qed.

(* ===================================================================== *)
(** * Further properties: the rewritten image                            *)
(* ===================================================================== *)

Lemma append_assoc_s (a b c : string) : (a +:+ b) +:+ c = a +:+ (b +:+ c).
Proof.
  induction a as [|x a IH]; [reflexivity|].
  rewrite !append_cons. now rewrite IH.
Qed.

Lemma append_nil_r_s (a : string) : a +:+ EmptyString = a.
Proof.
  induction a as [|x a IH]; [reflexivity|].
  rewrite append_cons. now rewrite IH.
Qed.

Lemma HasPrefix_append (s p t : string) :
  GoStrings.HasPrefix s p = true -> GoStrings.HasPrefix (s +:+ t) p = true.
Proof.
  rewrite !HasPrefix_spec. intros [rest ->]. exists (rest +:+ t).
  apply append_assoc_s.
Qed.

Lemma firstPiece_cons (c : ascii) (s : string) :
  firstPiece (String c s)
  = if Ascii.eqb c ":" then EmptyString else String c (firstPiece s).
Proof.
  unfold firstPiece. cbn [GoStrings.Split].
  destruct (Ascii.eqb c ":"); [reflexivity|].
  pose proof (Split_not_nil s ":") as Hne.
  now destruct (GoStrings.Split s ":").
Qed.

(** The piece kept has no [":"], and is the whole image when the image
    has none. *)
Lemma firstPiece_no_colon (s : string) : hasColon (firstPiece s) = false.
Proof.
  induction s as [|c s IH]; [reflexivity|].
  rewrite firstPiece_cons. destruct (Ascii.eqb c ":") eqn:E; [reflexivity|].
  cbn [hasColon]. now rewrite E, IH.
Qed.

Lemma firstPiece_whole (s : string) : hasColon s = false -> firstPiece s = s.
Proof.
  induction s as [|c s IH]; [reflexivity|].
  cbn [hasColon]. rewrite firstPiece_cons.
  destruct (Ascii.eqb c ":"); [discriminate|].
  intros H. now rewrite IH.
Qed.

Lemma firstPiece_idem (s : string) : firstPiece (firstPiece s) = firstPiece s.
Proof. apply firstPiece_whole, firstPiece_no_colon. Qed.

(** Text after a [":"] does not change the piece kept. *)
Lemma firstPiece_append (a t : string) :
  firstPiece (a +:+ ":" +:+ t) = firstPiece a.
Proof.
  induction a as [|c a IH]; [reflexivity|].
  rewrite append_cons, !firstPiece_cons. now rewrite IH.
Qed.

(** A prefix of the image either lies within the piece kept, or has the
    same piece kept as the image. *)
Lemma firstPiece_prefix (image p : string) :
  GoStrings.HasPrefix image p = true ->
  if hasColon p then firstPiece p = firstPiece image
  else GoStrings.HasPrefix (firstPiece image) p = true.
Proof.
  unfold GoStrings.HasPrefix. revert image.
  induction p as [|a p IH]; intros image H.
  - cbn [hasColon]. now destruct (firstPiece image).
  - destruct image as [|b image]; [discriminate|].
    cbn [String.prefix] in H.
    destruct (Ascii.ascii_dec a b) as [->|]; [|discriminate].
    specialize (IH image H). cbn [hasColon]. rewrite !firstPiece_cons.
    destruct (Ascii.eqb b ":") eqn:E; cbn [orb]; [reflexivity|].
    destruct (hasColon p).
    + now rewrite IH.
    + cbn [String.prefix]. now destruct (Ascii.ascii_dec b b).
Qed.

Lemma rewriteImage_has_prefix (image p v : string) :
  GoStrings.HasPrefix (rewriteImage image p v) p = true.
Proof.
  unfold rewriteImage.
  destruct (GoStrings.HasPrefix (replaceTag image v) p) eqn:E; cbn [negb].
  - exact E.
  - apply HasPrefix_spec. now eexists.
Qed.

Lemma rewriteImage_has_version (image p v : string) :
  exists repository, rewriteImage image p v = repository +:+ ":" +:+ v.
Proof.
  unfold rewriteImage.
  destruct (GoStrings.HasPrefix (replaceTag image v) p); cbn [negb].
  - rewrite replaceTag_first_piece. now eexists.
  - now eexists.
Qed.

(** X1. The shape of the rewritten image. Whatever the image, the prefix
    and the version, the image [UpdateServices] computes starts with the
    prefix and ends with [":"] and the version; so a service that was
    updated is selected again by a request with the same prefix. *)
Theorem rewriteImage_shape :
  forall (image imagePrefix newVersion : string),
    (exists rest, rewriteImage image imagePrefix newVersion
                  = imagePrefix +:+ rest)
    /\ (exists repository, rewriteImage image imagePrefix newVersion
                           = repository +:+ ":" +:+ newVersion)
    /\ (forall prefixes,
          In imagePrefix prefixes ->
          matchesPrefix (rewriteImage image imagePrefix newVersion) prefixes
          = true).
Proof.
  intros image p v.
  split; [apply HasPrefix_spec, rewriteImage_has_prefix|].
  split; [apply rewriteImage_has_version|].
  intros prefixes Hin. apply matchesPrefix_true. exists p.
  split; [exact Hin | apply rewriteImage_has_prefix].
Qed.

(** X2. A prefix without [":"]. When the prefix the image starts with has
    no [":"] in it, the rewrite is the plain tag substitution: the image
    up to its first [":"], then [":"] and the version (the image itself
    when it has no [":"]). *)
Theorem rewriteImage_plain_prefix :
  forall (image imagePrefix newVersion : string),
    GoStrings.HasPrefix image imagePrefix = true ->
    hasColon imagePrefix = false ->
    rewriteImage image imagePrefix newVersion
    = firstPiece image +:+ ":" +:+ newVersion
    /\ (hasColon image = false ->
        rewriteImage image imagePrefix newVersion
        = image +:+ ":" +:+ newVersion).
Proof.
  intros image p v Hp Hc.
  assert (H : rewriteImage image p v = firstPiece image +:+ ":" +:+ v).
  { unfold rewriteImage. rewrite replaceTag_first_piece. fold (firstPiece image).
    pose proof (firstPiece_prefix image p Hp) as Hfp. rewrite Hc in Hfp.
    now rewrite (HasPrefix_append _ _ (":" +:+ v) Hfp). }
  split; [exact H|]. intros Hi. rewrite H. now rewrite firstPiece_whole.
Qed.

Lemma rewriteImage_plain_prefix_sample :
  rewriteImage "docker.io/myorg/myapp:v1.0.0" "docker.io/myorg" "v2"
  = "docker.io/myorg/myapp:v2".
Proof.
  exact (proj1 (rewriteImage_plain_prefix "docker.io/myorg/myapp:v1.0.0"
                  "docker.io/myorg" "v2" eq_refl eq_refl)).
Defined.

(** X3. Updating twice. Rewriting an image that was already rewritten is
    the same as rewriting the original image directly to the later
    version, for the tag substitution alone and, when the image starts
    with the prefix, for the whole rewrite. *)
Theorem rewriteImage_twice :
  forall (image imagePrefix v1 v2 : string),
    replaceTag (replaceTag image v1) v2 = replaceTag image v2
    /\ (GoStrings.HasPrefix image imagePrefix = true ->
        rewriteImage (rewriteImage image imagePrefix v1) imagePrefix v2
        = rewriteImage image imagePrefix v2).
Proof.
  intros image p v1 v2.
  assert (Htag : forall x v, replaceTag x v = firstPiece x +:+ ":" +:+ v)
    by (intros; apply replaceTag_first_piece).
  split.
  - now rewrite !Htag, firstPiece_append, firstPiece_idem.
  - intros Hp. unfold rewriteImage at 2.
    destruct (GoStrings.HasPrefix (replaceTag image v1) p) eqn:E; cbn [negb].
    + unfold rewriteImage.
      now rewrite !Htag, firstPiece_append, firstPiece_idem.
    + unfold rewriteImage. rewrite !Htag, firstPiece_append.
      pose proof (firstPiece_prefix image p Hp) as Hfp.
      destruct (hasColon p).
      * now rewrite Hfp.
      * rewrite Htag in E.
        now rewrite (HasPrefix_append _ _ (":" +:+ v1) Hfp) in E.
Qed.

Lemma rewriteImage_twice_sample :
  rewriteImage (rewriteImage "localhost:5000/myapp:v1" "localhost:5000/my" "v2")
    "localhost:5000/my" "v3"
  = "localhost:5000/my:v3".
Proof.
  exact (proj2 (rewriteImage_twice "localhost:5000/myapp:v1"
                  "localhost:5000/my" "v2" "v3") eq_refl).
Defined.

(** The order of the prefixes does not change whether an image matches. *)
Lemma matchesPrefix_app (image : string) (l1 l2 : list string) :
  matchesPrefix image (l1 ++ l2)
  = matchesPrefix image l1 || matchesPrefix image l2.
Proof.
  induction l1 as [|p l1 IH]; [reflexivity|].
  cbn [app matchesPrefix]. now destruct (GoStrings.HasPrefix image p).
Qed.

Lemma matchesPrefix_Permutation (image : string) (l1 l2 : list string) :
  l1 ≡ₚ l2 -> matchesPrefix image l1 = matchesPrefix image l2.
Proof.
  intros H. induction H as [|p l1 l2 _ IH|p q l|l1 l2 l3 _ IH1 _ IH2].
  - reflexivity.
  - cbn [matchesPrefix]. now rewrite IH.
  - cbn [matchesPrefix].
    now destruct (GoStrings.HasPrefix image p), (GoStrings.HasPrefix image q).
  - now rewrite IH1.
Qed.

(** X4. The services selected. Which services [UpdateServices] selects
    does not depend on the order of the prefixes (nor on repetitions
    among them); a longer list of prefixes selects at least the same
    services; the empty list selects none. *)
Theorem matchedServices_prefix_order :
  forall (prefixes prefixes' : list string) (services : list Service),
    (prefixes ≡ₚ prefixes' ->
     matchedServices prefixes services = matchedServices prefixes' services)
    /\ (forall s, In s (matchedServices prefixes services) ->
                  In s (matchedServices (prefixes ++ prefixes') services))
    /\ matchedServices (prefixes ++ prefixes) services
       = matchedServices prefixes services
    /\ matchedServices [] services = [].
Proof.
  intros prefixes prefixes' services. unfold matchedServices.
  split; [|split; [|split]].
  - intros H. apply filter_ext. intros s.
    rewrite !matchImage_matched. now apply matchesPrefix_Permutation.
  - intros s Hs. apply filter_In in Hs as [Hin Hm]. apply filter_In.
    split; [exact Hin|].
    rewrite matchImage_matched in *. rewrite matchesPrefix_app.
    now rewrite Hm.
  - apply filter_ext. intros s. rewrite !matchImage_matched.
    rewrite matchesPrefix_app. now destruct (matchesPrefix _ prefixes).
  - induction services as [|s services IH]; [reflexivity|exact IH].
Qed.

Lemma matchedServices_prefix_order_sample :
  matchedServices ["myapp"; "other"] (servicesOf keyOrder 0 threeNodes)
  = matchedServices ["other"; "myapp"] (servicesOf keyOrder 0 threeNodes).
Proof.
  apply (proj1 (matchedServices_prefix_order ["myapp"; "other"]
                  ["other"; "myapp"] (servicesOf keyOrder 0 threeNodes))).
  apply perm_swap.
Defined.

(* ===================================================================== *)
(** * Further properties: the client                                     *)
(* ===================================================================== *)

(** X5. [doRequest] returns data only for a response with status 200 whose
    body decodes and lists no error, and then it returns the [data] of the
    body; a status other than 200 is an error whatever the body holds, and
    a response that lists errors is an error with the message of the
    first, whatever [data] it holds. Every call is recorded. *)
Theorem doRequest_data_only_when_ok :
  forall (http : list Call -> Call -> HttpOutcome)
    (parseResponse : string -> result GraphQLResponse)
    (call : Call) (h : list Call),
    let r := doRequest (respondThrough http parseResponse) call h in
    snd r = h ++ [call]
    /\ (forall data,
          fst r = Ok data <->
          exists body graphqlResp,
            http h call = HttpResponse 200 body
            /\ parseResponse body = Ok graphqlResp
            /\ Errors graphqlResp = []
            /\ Data graphqlResp = data)
    /\ (forall statusCode body,
          http h call = HttpResponse statusCode body ->
          statusCode <> 200%Z ->
          fst r = Err ("API returned status " +:+ itoaZ statusCode +:+ ": "
                       +:+ body))
    /\ (forall body graphqlResp message rest,
          http h call = HttpResponse 200 body ->
          parseResponse body = Ok graphqlResp ->
          Errors graphqlResp = message :: rest ->
          fst r = Err ("GraphQL error: " +:+ message)).
Proof.
  intros http parseResponse call h r. subst r.
  unfold doRequest, respondThrough, doRequestResult. cbn [fst snd].
  split; [reflexivity|]. split; [|split].
  - intros data. split.
    + destruct (http h call) as [e|e|status body]; try discriminate.
      destruct (status =? StatusOK)%Z eqn:Es; cbn [negb]; [|discriminate].
      apply Z.eqb_eq in Es. subst status.
      destruct (parseResponse body) as [g|e] eqn:Ep; [|discriminate].
      destruct (Errors g) as [|m ms] eqn:Ee; [|discriminate].
      intros [= <-]. now exists body, g.
    + intros (body & g & -> & Hp & He & <-).
      now rewrite Hp, He.
  - intros status body -> Hs.
    destruct (status =? StatusOK)%Z eqn:Es; [|reflexivity].
    apply Z.eqb_eq in Es. contradiction.
  - intros body g m rest -> Hp He. now rewrite Hp, He.
Qed.

(** A response with status 500 whose body would decode to data. *)
Lemma doRequest_status_500_sample :
  fst (doRequest (respondThrough (httpAlways 500 "{}")
                    (fun _ => Ok {| Data := "{}"; Errors := [] |}))
         (EnvironmentQuery "env") [])
  = Err "API returned status 500: {}".
Proof.
  apply (proj1 (proj2 (proj2 (doRequest_data_only_when_ok
                                (httpAlways 500 "{}")
                                (fun _ => Ok {| Data := "{}"; Errors := [] |})
                                (EnvironmentQuery "env") [])))
           500%Z "{}" eq_refl).
  discriminate.
Defined.

Section ClientProperties.

Context (respond : list Call -> Call -> result string).
Context (decodeEnvironment : string -> result (list Node)).
Context (order : nat -> RangeOrder).
Context (c : RailwayClient) (environmentID : string).
Context (imagePrefixes : list string) (newVersion : string).

Local Abbreviation loop :=
  (updateLoop respond c environmentID imagePrefixes newVersion).
Local Abbreviation selected := (matchedServices imagePrefixes).
Local Abbreviation update :=
  (updateCall c environmentID imagePrefixes newVersion).
Local Abbreviation deploy := (deployCall environmentID).
Local Abbreviation calls :=
  (callsFor c environmentID imagePrefixes newVersion).
Local Abbreviation allCalls :=
  (callsForAll c environmentID imagePrefixes newVersion).
Local Abbreviation done :=
  (completed respond c environmentID imagePrefixes newVersion).
Local Abbreviation query := (EnvironmentQuery environmentID).
Local Abbreviation getServices :=
  (GetServices respond decodeEnvironment order environmentID).
Local Abbreviation updateServices :=
  (UpdateServices respond decodeEnvironment order c environmentID
     imagePrefixes newVersion).

(** The listed services, field by field. *)
Lemma servicesOf_listing (i : nat) (nodes : list Node) :
  map listedAs (servicesOf order i nodes)
  = map listingOf (List.filter hasImage nodes).
Proof.
  revert i. induction nodes as [|node nodes IH]; intros i; [reflexivity|].
  cbn [servicesOf List.filter]. unfold hasImage at 1.
  destruct (negb (String.eqb (Source_Image node) EmptyString));
    cbn [map]; now rewrite IH.
Qed.

Lemma servicesOf_replicas (i : nat) (nodes : list Node) (s : Service) :
  In s (servicesOf order i nodes) ->
  exists j node,
    In node nodes /\ hasImage node = true /\ listedAs s = listingOf node
    /\ NumReplicas s
       = resolveReplicaCount (order j) (ServiceName node)
           (LatestDeployment node).
Proof.
  revert i. induction nodes as [|node nodes IH]; intros i; [intros []|].
  cbn [servicesOf]. fold (hasImage node).
  destruct (hasImage node) eqn:E.
  - intros [<- | Hin].
    + exists i, node. repeat split; [now left | exact E].
    + destruct (IH _ Hin) as (j & n & Hn & Hi & Hl & Hr).
      exists j, n. repeat split; try assumption. now right.
  - intros Hin. destruct (IH _ Hin) as (j & n & Hn & Hi & Hl & Hr).
    exists j, n. repeat split; try assumption. now right.
Qed.

(** X6. [GetServices] makes one call, the query of the environment. When
    the query and the decoding of its answer succeed it returns, in the
    order of the answer, one service for each node that has an image, with
    the service id, the service name and the image of the node, and with
    the replica count resolved from the node's latest deployment; nodes
    without an image are left out. An error of the query is returned as
    it is, an error of the decoding as a failure to parse the services. *)
Theorem GetServices_lists_nodes_with_image :
  forall (h : list Call),
    snd (getServices h) = h ++ [query]
    /\ (forall data nodes,
          respond h query = Ok data ->
          decodeEnvironment data = Ok nodes ->
          exists services,
            fst (getServices h) = Ok services
            /\ map listedAs services
               = map listingOf (List.filter hasImage nodes)
            /\ (forall s, In s services ->
                  Image s <> EmptyString
                  /\ exists j node,
                       In node nodes /\ listedAs s = listingOf node
                       /\ NumReplicas s
                          = resolveReplicaCount (order j) (ServiceName node)
                              (LatestDeployment node)))
    /\ (forall err, respond h query = Err err -> fst (getServices h) = Err err)
    /\ (forall data err,
          respond h query = Ok data ->
          decodeEnvironment data = Err err ->
          fst (getServices h) = Err ("failed to parse services: " +:+ err)).
Proof.
  intros h. unfold GetServices, bind, doRequest.
  split; [|split; [|split]].
  - destruct (respond h query) as [data|e]; [|reflexivity].
    now destruct (decodeEnvironment data).
  - intros data nodes -> ->. exists (servicesOf order 0 nodes).
    split; [reflexivity|]. split; [apply servicesOf_listing|].
    intros s Hin.
    destruct (servicesOf_replicas 0 nodes s Hin) as (j & n & Hn & Hi & Hl & Hr).
    split.
    + unfold listedAs, listingOf in Hl. injection Hl as _ _ ->.
      unfold hasImage in Hi. apply negb_true_iff in Hi.
      now apply String.eqb_neq.
    + now exists j, n.
  - now intros e ->.
  - now intros data e -> ->.
Qed.

(** What the loop does, whatever the platform answers. *)
Lemma loop_outcome (services : list Service) (names : list string)
  (h : list Call) :
  let k := done h (selected services) in
  exists attempt err,
    loop services (Slice names) h
    = ((Slice (names ++ map Name (firstn k (selected services))), err),
       h ++ allCalls (firstn k (selected services)) ++ attempt)
    /\ (err = None <-> k = length (selected services))
    /\ (err = None -> attempt = [])
    /\ (forall s, nth_error (selected services) k = Some s ->
          (attempt = [update s] \/ attempt = calls s)
          /\ exists e,
               err = Some ("failed to update service " +:+ Name s +:+ ": "
                           +:+ e)).
Proof.
  revert names h. induction services as [|s services IH]; intros names h.
  - exists [], None. cbn. rewrite !app_nil_r. repeat split; try discriminate.
  - rewrite selected_cons.
    destruct (fst (matchImage (Image s) imagePrefixes)) eqn:Hm.
    + cbn [completed]. fold (calls s).
      destruct (succeeds respond h (calls s)) eqn:Hs.
      * rewrite (loop_both_succeed _ _ _ _ _ _ _ _ _ Hm Hs). cbn [append].
        destruct (IH (names ++ [Name s]) (h ++ calls s))
          as (attempt & err & Hrun & Hnone & Hatt & Hnth).
        exists attempt, err. cbn zeta in *.
        rewrite Hrun. cbn [firstn map length nth_error].
        rewrite allCalls_cons, <- !app_assoc. cbn [app].
        split; [reflexivity|]. split; [|split; assumption].
        rewrite Hnone. split; [now intros -> | now intros [= ->]].
      * cbn zeta. cbn [firstn map length nth_error callsForAll flat_map].
        rewrite !app_nil_r. unfold callsFor in Hs. cbn [succeeds] in Hs.
        destruct (respond h (update s)) as [d|e] eqn:Hu.
        -- destruct (respond (h ++ [update s]) (deploy s)) as [d'|e] eqn:Hd;
             [discriminate|].
           rewrite (loop_deploy_fails _ _ _ _ _ _ _ _ _ d e Hm Hu Hd).
           exists (calls s), (Some (deployError s e)).
           split; [reflexivity|]. split; [split; discriminate|].
           split; [discriminate|].
           intros s' [= <-]. split; [now right | now eexists].
        -- rewrite (loop_update_fails _ _ _ _ _ _ _ _ _ e Hm Hu).
           exists [update s], (Some (updateError s e)).
           split; [reflexivity|]. split; [split; discriminate|].
           split; [discriminate|].
           intros s' [= <-]. split; [now left | now eexists].
    + rewrite (loop_skip _ _ _ _ _ _ _ _ _ Hm). apply IH.
Qed.

Lemma completed_le (h : list Call) (matched : list Service) :
  done h matched <= length matched.
Proof.
  revert h. induction matched as [|s matched IH]; intros h; [reflexivity|].
  cbn [completed length]. destruct (succeeds _ _ _); [|lia].
  specialize (IH (h ++ calls s)). lia.
Qed.

(** Every call of the loop is one of the two calls of a selected
    service. *)
Lemma loop_calls_selected (services : list Service) (names : list string)
  (h : list Call) :
  exists tail,
    snd (loop services (Slice names) h) = h ++ tail
    /\ forall call, In call tail ->
         exists s, In s (selected services) /\ In call (calls s).
Proof.
  destruct (loop_outcome services names h)
    as (attempt & err & Hrun & Hnone & Hatt & Hnth).
  cbn zeta in *. set (k := done h (selected services)) in *.
  exists (allCalls (firstn k (selected services)) ++ attempt).
  split; [now rewrite Hrun|].
  intros call Hin. apply in_app_or in Hin as [Hin | Hin].
  - apply in_flat_map in Hin as (s & Hs & Hcall).
    exists s. split; [|exact Hcall].
    rewrite <- (firstn_skipn k (selected services)). apply in_or_app. now left.
  - destruct (nth_error (selected services) k) as [s|] eqn:En.
    + exists s. split; [now apply nth_error_In in En|].
      destruct (Hnth s eq_refl) as [[Ha | Ha] _]; rewrite Ha in Hin.
      * destruct Hin as [<- | []]. now left.
      * exact Hin.
    + apply nth_error_None in En.
      pose proof (completed_le h (selected services)) as Hle.
      assert (Hk : k = length (selected services)) by (subst k; lia).
      apply Hnone in Hk. rewrite (Hatt Hk) in Hin. destruct Hin.
Qed.

(** X7. The outcome of [UpdateServices], whatever the platform answers to
    the updates and redeploys. After a successful listing, the services
    reported as updated are the first [k] selected services, in order,
    where [k] counts the selected services, from the first on, for which
    both calls succeeded; exactly their calls were made, followed, when
    [k] is not all of them, by the failed attempt at the next one; and no
    error is returned exactly when [k] is all of them. *)
Theorem UpdateServices_outcome :
  forall (h : list Call) (data : string) (nodes : list Node),
    respond h query = Ok data ->
    decodeEnvironment data = Ok nodes ->
    let matched := selected (servicesOf order 0 nodes) in
    let k := done (h ++ [query]) matched in
    exists attempt err,
      updateServices h
      = ((Slice (map Name (firstn k matched)), err),
         (h ++ [query]) ++ allCalls (firstn k matched) ++ attempt)
      /\ k <= length matched
      /\ (err = None <-> k = length matched)
      /\ (err = None -> attempt = [])
      /\ (forall s, nth_error matched k = Some s ->
            (attempt = [update s] \/ attempt = calls s)
            /\ exists e,
                 err = Some ("failed to update service " +:+ Name s +:+ ": "
                             +:+ e)).
Proof.
  intros h data nodes Hq Hd matched k.
  rewrite (UpdateServices_listed _ _ _ _ _ _ _ _ _ _ Hq Hd).
  destruct (loop_outcome (servicesOf order 0 nodes) [] (h ++ [query]))
    as (attempt & err & Hrun & Hrest).
  exists attempt, err. split; [exact Hrun|].
  split; [apply completed_le | exact Hrest].
Qed.

(** X8. Only selected services are touched. After a successful listing,
    every call [UpdateServices] makes after the query is the update or the
    redeploy of a listed service whose image starts with one of the
    prefixes; an update sets an image that starts with one of the
    prefixes and ends with [":"] and the version, keeps the replica count
    of the listing, and carries registry credentials exactly when the
    client has both a user and a password. *)
Theorem UpdateServices_touches_only_selected :
  forall (h : list Call) (data : string) (nodes : list Node),
    respond h query = Ok data ->
    decodeEnvironment data = Ok nodes ->
    exists tail,
      snd (updateServices h) = h ++ query :: tail
      /\ forall call, In call tail ->
           exists s,
             In s (servicesOf order 0 nodes)
             /\ matchesPrefix (Image s) imagePrefixes = true
             /\ (call = ServiceInstanceDeploy (ID s) environmentID false
                 \/ exists newImage p repository,
                      call = ServiceInstanceUpdate environmentID (ID s)
                               newImage (NumReplicas s) (credentialsOf c)
                      /\ In p imagePrefixes
                      /\ GoStrings.HasPrefix newImage p = true
                      /\ newImage = repository +:+ ":" +:+ newVersion).
Proof.
  intros h data nodes Hq Hd.
  rewrite (UpdateServices_listed _ _ _ _ _ _ _ _ _ _ Hq Hd).
  destruct (loop_calls_selected (servicesOf order 0 nodes) [] (h ++ [query]))
    as (tail & Htail & Hcalls).
  exists tail. split; [now rewrite Htail, <- app_assoc|].
  intros call Hin. destruct (Hcalls call Hin) as (s & Hs & Hcall).
  apply filter_In in Hs as [Hlisted Hm].
  exists s. split; [exact Hlisted|].
  split; [now rewrite <- matchImage_matched|].
  destruct Hcall as [<- | [<- | []]]; [right | now left].
  destruct (matchImage (Image s) imagePrefixes) as [m p] eqn:E.
  cbn [fst] in Hm. subst m.
  destruct (rewriteImage_has_version (Image s) p newVersion) as [repo Hrepo].
  exists (rewriteImage (Image s) p newVersion), p, repo.
  unfold updateCall. rewrite E. cbn [snd].
  split; [reflexivity|]. split.
  - apply matchImage_first in E as (before & after & -> & _).
    apply in_elt.
  - split; [apply rewriteImage_has_prefix | exact Hrepo].
Qed.

End ClientProperties.

(** Three selected services, the platform refusing the update of the
    second: one service completed, then the failed attempt. *)
Lemma UpdateServices_outcome_sample :
  exists attempt err,
    UpdateServices (respondRefusing "s2") (environmentOf threeNodes) keyOrder
      sampleClient "env" ["myapp"] "v2" []
    = ((Slice ["web"], err),
       [EnvironmentQuery "env";
        ServiceInstanceUpdate "env" "s1" "myapp:v2" 1 None;
        ServiceInstanceDeploy "s1" "env" false] ++ attempt)
    /\ err <> None.
Proof.
  destruct (UpdateServices_outcome (respondRefusing "s2")
              (environmentOf threeNodes) keyOrder sampleClient "env" ["myapp"]
              "v2" [] "{}" threeNodes eq_refl eq_refl)
    as (attempt & err & Hrun & _ & Hnone & _).
  exists attempt, err. split; [exact Hrun|].
  intros H. apply Hnone in H. vm_compute in H. discriminate.
Defined.

Lemma UpdateServices_touches_only_selected_sample :
  exists tail,
    snd (UpdateServices respondOk (environmentOf threeNodes) keyOrder
           sampleClient "env" ["myapp-w"] "v2" [])
    = [] ++ EnvironmentQuery "env" :: tail
    /\ forall call, In call tail ->
         exists s,
           In s (servicesOf keyOrder 0 threeNodes)
           /\ matchesPrefix (Image s) ["myapp-w"] = true
           /\ (call = ServiceInstanceDeploy (ID s) "env" false
               \/ exists newImage p repository,
                    call = ServiceInstanceUpdate "env" (ID s) newImage
                             (NumReplicas s) (credentialsOf sampleClient)
                    /\ In p ["myapp-w"]
                    /\ GoStrings.HasPrefix newImage p = true
                    /\ newImage = repository +:+ ":" +:+ "v2").
Proof.
  exact (UpdateServices_touches_only_selected respondOk
           (environmentOf threeNodes) keyOrder sampleClient "env" ["myapp-w"]
           "v2" [] "{}" threeNodes eq_refl eq_refl).
Defined.

(* ===================================================================== *)
(** * Further properties: the handler                                    *)
(* ===================================================================== *)

Section MoreHandlerProperties.

Context (respond : list Call -> Call -> result string).
Context (decodeEnvironment : string -> result (list Node)).
Context (order : nat -> RangeOrder).
Context (decodeRequest : string -> result UpdateRequest).
Context (uuid_Parse : string -> bool).
Context (c : RailwayClient).

Local Abbreviation handle :=
  (handleUpdate respond decodeEnvironment order decodeRequest uuid_Parse c).
Local Abbreviation updateServices :=
  (UpdateServices respond decodeEnvironment order c).

(** [UpdateServices] returns either an error or a list that is not
    [nil]. *)
Lemma UpdateServices_slice (environmentID : string)
  (imagePrefixes : list string) (newVersion : string) (h : list Call)
  (u : slice string) :
  fst (updateServices environmentID imagePrefixes newVersion h) = (u, None) ->
  exists names, u = Slice names.
Proof.
  unfold UpdateServices, GetServices, bind, doRequest.
  destruct (respond h (EnvironmentQuery environmentID)) as [data|e];
    [|discriminate].
  destruct (decodeEnvironment data) as [nodes|e]; [|discriminate].
  unfold ret.
  destruct (loop_outcome respond c environmentID imagePrefixes newVersion
              (servicesOf order 0 nodes) []
              (h ++ [EnvironmentQuery environmentID]))
    as (attempt & err & Hrun & _).
  cbn zeta in Hrun. rewrite Hrun. cbn [fst]. intros [= <- _]. now eexists.
Qed.

Lemma handle_not_put (method body : string) (h : list Call) :
  method <> "PUT" ->
  handle method body h
  = ({| StatusCode := 405;
        Body := ErrorResponse "Method not allowed, use PUT" |}, h).
Proof.
  intros Hm. unfold handleUpdate.
  apply String.eqb_neq in Hm. now rewrite Hm.
Qed.

Lemma handle_not_json (body err : string) (h : list Call) :
  decodeRequest body = Err err ->
  handle "PUT" body h
  = ({| StatusCode := 400;
        Body := ErrorResponse ("Invalid JSON: " +:+ err) |}, h).
Proof. intros Hd. unfold handleUpdate. now rewrite Hd. Qed.

(** The message of a rejected request is one of four. *)
Lemma handle_invalid_message (body : string) (req : UpdateRequest)
  (h : list Call) :
  decodeRequest body = Ok req ->
  validRequest uuid_Parse req = false ->
  exists msg,
    handle "PUT" body h
    = ({| StatusCode := 400; Body := ErrorResponse msg |}, h)
    /\ msg <> EmptyString.
Proof.
  intros Hd Hv. unfold handleUpdate, validRequest in *.
  rewrite Hd. change (negb (String.eqb "PUT" "PUT")) with false. cbv iota.
  destruct (uuid_Parse (ProjectID req)); cbn [negb andb] in *;
    [|eexists; split; [reflexivity|discriminate]].
  destruct (uuid_Parse (EnvironmentID req)); cbn [negb andb] in *;
    [|eexists; split; [reflexivity|discriminate]].
  destruct (length (ImagePrefixes req) =? 0)%nat; cbn [negb andb] in *;
    [eexists; split; [reflexivity|discriminate]|].
  destruct (String.eqb (NewVersion req) EmptyString); cbn [negb] in *;
    [eexists; split; [reflexivity|discriminate] | discriminate].
Qed.

(** X9. The status of the answer. The answer is 405 exactly for a method
    other than PUT; 400 exactly for a PUT whose body does not decode or
    whose request fails a check; for a request that passes, 500 when
    [UpdateServices] returns an error and 200 when it does not. An answer
    with an error has a message that is not empty and a status other than
    200; an answer of success has status 200 and a list of updated
    services that is never [nil] (so it is never encoded as null). *)
Theorem handleUpdate_status :
  forall (method body : string) (h : list Call),
    let r := fst (handle method body h) in
    (StatusCode r = 405%Z <-> method <> "PUT")
    /\ (StatusCode r = 400%Z <->
        method = "PUT"
        /\ forall req, decodeRequest body = Ok req ->
                       validRequest uuid_Parse req = false)
    /\ (forall req,
          method = "PUT" -> decodeRequest body = Ok req ->
          validRequest uuid_Parse req = true ->
          let result :=
            fst (updateServices (EnvironmentID req) (ImagePrefixes req)
                   (NewVersion req) h) in
          (StatusCode r = 500%Z <-> snd result <> None)
          /\ (StatusCode r = 200%Z <-> snd result = None))
    /\ match Body r with
       | ErrorResponse msg =>
           msg <> EmptyString
           /\ (StatusCode r = 400%Z \/ StatusCode r = 405%Z
               \/ StatusCode r = 500%Z)
       | SuccessResponse _ updated =>
           StatusCode r = 200%Z /\ exists names, updated = Slice names
       end.
Proof.
  intros method body h r. subst r.
  destruct (String.eqb_spec method "PUT") as [-> | Hm].
  - destruct (decodeRequest body) as [req|err] eqn:Hd.
    + destruct (validRequest uuid_Parse req) eqn:Hv.
      * rewrite (handle_valid _ _ _ _ _ _ body req h Hd Hv). cbn [fst].
        destruct (fst (updateServices _ _ _ h)) as [u [e|]] eqn:Hr;
          cbn [responseOf snd].
        -- cbn [StatusCode Body]. unfold StatusInternalServerError.
           split; [split; [discriminate | congruence]|].
           split.
           { split; [discriminate|]. intros [_ H].
             specialize (H req eq_refl). congruence. }
           split.
           { intros req' _ [= <-] _. cbn zeta. rewrite Hr. cbn [snd].
             split; split; try discriminate; try reflexivity; congruence. }
           split; [discriminate | auto].
        -- destruct (UpdateServices_slice _ _ _ _ _ Hr) as [names ->].
           assert (Hst : forall m u, StatusCode
                     (if (len (Slice names) =? 0)%nat
                      then {| StatusCode := StatusOK;
                              Body := SuccessResponse m (Slice []) |}
                      else {| StatusCode := StatusOK;
                              Body := SuccessResponse u (Slice names) |})
                     = 200%Z)
             by (intros; now destruct (len (Slice names) =? 0)%nat).
           rewrite Hst.
           split; [split; [discriminate | congruence]|].
           split.
           { split; [discriminate|]. intros [_ H].
             specialize (H req eq_refl). congruence. }
           split.
           { intros req' _ [= <-] _. cbn zeta. rewrite Hr. cbn [snd].
             split; split; try discriminate; try reflexivity; congruence. }
           destruct (len (Slice names) =? 0)%nat; cbn [Body StatusCode];
             (split; [reflexivity | now eexists]).
      * destruct (handle_invalid_message body req h Hd Hv) as (msg & Hh & Hne).
        rewrite Hh. cbn [fst StatusCode Body].
        split; [split; [discriminate | congruence]|].
        split.
        { split; [|reflexivity]. intros _. split; [reflexivity|].
          intros req' [= <-]. exact Hv. }
        split; [intros req' _ [= <-] Hv'; congruence|].
        split; [exact Hne | auto].
    + rewrite (handle_not_json body err h Hd). cbn [fst StatusCode Body].
      split; [split; [discriminate | congruence]|].
      split.
      { split; [|reflexivity]. intros _. split; [reflexivity|].
        intros req'. discriminate. }
      split; [intros req' _; discriminate|].
      split; [discriminate | auto].
  - rewrite (handle_not_put method body h Hm). cbn [fst StatusCode Body].
    split; [split; [now intros _ | reflexivity]|].
    split; [split; [discriminate | intros [H _]; contradiction]|].
    split; [intros req' H; contradiction|].
    split; [discriminate | auto].
Qed.

(** X10. When the platform is contacted. A request that is not answered
    200 or 500 leaves the platform alone; the handler contacts it exactly
    for a PUT whose body decodes to a request that passes the four
    checks, and then the first call lists the environment of the
    request. *)
Theorem handleUpdate_contacts_platform_iff_valid :
  forall (method body : string) (h : list Call),
    (snd (handle method body h) = h
     /\ (method <> "PUT"
         \/ (exists err, decodeRequest body = Err err)
         \/ exists req, decodeRequest body = Ok req
                        /\ validRequest uuid_Parse req = false))
    \/ (exists req tail,
          method = "PUT" /\ decodeRequest body = Ok req
          /\ validRequest uuid_Parse req = true
          /\ snd (handle method body h)
             = h ++ EnvironmentQuery (EnvironmentID req) :: tail).
Proof.
  intros method body h.
  destruct (String.eqb_spec method "PUT") as [-> | Hm].
  - destruct (decodeRequest body) as [req|err] eqn:Hd.
    + destruct (validRequest uuid_Parse req) eqn:Hv.
      * right.
        destruct (UpdateServices_first_call respond decodeEnvironment order c
                    (EnvironmentID req) (ImagePrefixes req) (NewVersion req) h)
          as [tail Ht].
        exists req, tail. repeat split; try assumption.
        now rewrite (handle_valid _ _ _ _ _ _ body req h Hd Hv).
      * left. destruct (handle_invalid_message body req h Hd Hv)
          as (msg & Hh & _).
        rewrite Hh. split; [reflexivity|]. right. right. now exists req.
    + left. rewrite (handle_not_json body err h Hd).
      split; [reflexivity|]. right. left. now exists err.
  - left. rewrite (handle_not_put method body h Hm). split; [reflexivity|].
    now left.
Qed.

(** X11. A successful update. For a request that passes the checks, when
    the listing and every update and redeploy succeed and at least one
    service is selected, the answer is 200 with the number of selected
    services in its message and their names, in the order of the listing,
    as the updated services. *)
Theorem handleUpdate_reports_updated_services :
  forall (body : string) (req : UpdateRequest) (h : list Call)
    (data : string) (nodes : list Node),
    decodeRequest body = Ok req ->
    validRequest uuid_Parse req = true ->
    respond h (EnvironmentQuery (EnvironmentID req)) = Ok data ->
    decodeEnvironment data = Ok nodes ->
    let matched :=
      matchedServices (ImagePrefixes req) (servicesOf order 0 nodes) in
    let calls :=
      callsForAll c (EnvironmentID req) (ImagePrefixes req) (NewVersion req)
        matched in
    succeeds respond (h ++ [EnvironmentQuery (EnvironmentID req)]) calls
    = true ->
    matched <> [] ->
    handle "PUT" body h
    = ({| StatusCode := 200;
          Body := SuccessResponse
                    ("Successfully updated " +:+ itoa (length matched)
                     +:+ " service(s)")
                    (Slice (map Name matched)) |},
       (h ++ [EnvironmentQuery (EnvironmentID req)]) ++ calls).
Proof.
  intros body req h data nodes Hd Hv Hq Hn matched calls Hs Hne.
  rewrite (handle_valid _ _ _ _ _ _ body req h Hd Hv).
  rewrite (UpdateServices_listed _ _ _ _ _ _ _ _ _ _ Hq Hn).
  rewrite loop_all_succeed by exact Hs.
  fold matched. fold calls. cbn [fst snd app responseOf len].
  rewrite length_map.
  destruct matched as [|s matched']; [congruence | reflexivity].
Qed.

(** X12. A failed listing. When the listing fails (the query, or the
    decoding of its answer), [UpdateServices] returns the [nil] list with
    an error after that one call: nothing is updated or redeployed; and
    the handler answers a request that passes the checks with 500 and the
    message of the error. *)
Theorem UpdateServices_listing_fails :
  forall (environmentID : string) (imagePrefixes : list string)
    (newVersion : string) (h : list Call) (err : string),
    fst (GetServices respond decodeEnvironment order environmentID h)
    = Err err ->
    updateServices environmentID imagePrefixes newVersion h
    = ((nil_slice, Some ("failed to get services: " +:+ err)),
       h ++ [EnvironmentQuery environmentID])
    /\ (forall body req,
          decodeRequest body = Ok req ->
          validRequest uuid_Parse req = true ->
          EnvironmentID req = environmentID ->
          ImagePrefixes req = imagePrefixes ->
          NewVersion req = newVersion ->
          handle "PUT" body h
          = ({| StatusCode := 500;
                Body := ErrorResponse
                          ("Failed to update services: "
                           +:+ "failed to get services: " +:+ err) |},
             h ++ [EnvironmentQuery environmentID])).
Proof.
  intros environmentID imagePrefixes newVersion h err Hg.
  assert (Hu : updateServices environmentID imagePrefixes newVersion h
               = ((nil_slice, Some ("failed to get services: " +:+ err)),
                  h ++ [EnvironmentQuery environmentID])).
  { unfold UpdateServices, bind.
    unfold GetServices, bind, doRequest in *.
    destruct (respond h (EnvironmentQuery environmentID)) as [data|e].
    - destruct (decodeEnvironment data) as [nodes|e]; [discriminate|].
      cbn [fst ret] in Hg. injection Hg as <-. reflexivity.
    - cbn [fst ret] in Hg. injection Hg as <-. reflexivity. }
  split; [exact Hu|].
  intros body req Hd Hv <- <- <-.
  rewrite (handle_valid _ _ _ _ _ _ body req h Hd Hv). now rewrite Hu.
Qed.

End MoreHandlerProperties.

Lemma handleUpdate_reports_updated_services_sample :
  handleUpdate respondOk (environmentOf threeNodes) keyOrder
    (bodyOf (sampleRequest ["myapp-"] "v2")) sampleUuidParse sampleClient
    "PUT" "body" []
  = ({| StatusCode := 200;
        Body := SuccessResponse "Successfully updated 2 service(s)"
                  (Slice ["worker"; "cron"]) |},
     [EnvironmentQuery "550e8400-e29b-41d4-a716-446655440001";
      ServiceInstanceUpdate "550e8400-e29b-41d4-a716-446655440001" "s2"
        "myapp-worker:v2" 1 None;
      ServiceInstanceDeploy "s2" "550e8400-e29b-41d4-a716-446655440001" false;
      ServiceInstanceUpdate "550e8400-e29b-41d4-a716-446655440001" "s3"
        "myapp-cron:v2" 1 None;
      ServiceInstanceDeploy "s3" "550e8400-e29b-41d4-a716-446655440001"
        false]).
Proof.
  apply (handleUpdate_reports_updated_services respondOk
           (environmentOf threeNodes) keyOrder
           (bodyOf (sampleRequest ["myapp-"] "v2")) sampleUuidParse
           sampleClient "body" (sampleRequest ["myapp-"] "v2") [] "{}"
           threeNodes eq_refl eq_refl eq_refl eq_refl eq_refl).
  discriminate.
Defined.

Lemma UpdateServices_listing_fails_sample :
  UpdateServices respondDown (environmentOf threeNodes) keyOrder sampleClient
    "env" ["myapp"] "v2" []
  = ((nil_slice,
      Some ("failed to get services: "
            +:+ "failed to execute request: connection refused")),
     [EnvironmentQuery "env"]).
Proof.
  exact (proj1 (UpdateServices_listing_fails respondDown
                  (environmentOf threeNodes) keyOrder
                  (bodyOf (sampleRequest ["myapp"] "v2")) sampleUuidParse
                  sampleClient "env" ["myapp"] "v2" []
                  "failed to execute request: connection refused" eq_refl)).
Defined.

(* ===================================================================== *)
(** * Further properties: across the layers                              *)
(* ===================================================================== *)

(** X13. An HTTP failure during the updates. After a successful listing
    and the successful update and redeploy of the selected services
    before [failing], when the platform answers the update of [failing]
    with a status other than 200, or with status 200 and a body that
    lists errors, [UpdateServices] makes no further call (no redeploy of
    [failing]), reports the services before it as updated, and returns an
    error that names [failing] and carries the status and body, or the
    first message. *)
Theorem UpdateServices_http_failure :
  forall (http : list Call -> Call -> HttpOutcome)
    (parseResponse : string -> result GraphQLResponse)
    (decodeEnvironment : string -> result (list Node))
    (order : nat -> RangeOrder) (c : RailwayClient)
    (environmentID : string) (imagePrefixes : list string)
    (newVersion : string) (h : list Call) (data : string)
    (nodes : list Node) (done later : list Service) (failing : Service),
    let respond := respondThrough http parseResponse in
    let update := updateCall c environmentID imagePrefixes newVersion in
    let h1 := (h ++ [EnvironmentQuery environmentID])
              ++ callsForAll c environmentID imagePrefixes newVersion done in
    let run := UpdateServices respond decodeEnvironment order c environmentID
                 imagePrefixes newVersion h in
    respond h (EnvironmentQuery environmentID) = Ok data ->
    decodeEnvironment data = Ok nodes ->
    matchedServices imagePrefixes (servicesOf order 0 nodes)
    = done ++ failing :: later ->
    succeeds respond (h ++ [EnvironmentQuery environmentID])
      (callsForAll c environmentID imagePrefixes newVersion done) = true ->
    (forall statusCode body,
       http h1 (update failing) = HttpResponse statusCode body ->
       statusCode <> 200%Z ->
       run = ((Slice (map Name done),
               Some (updateError failing
                       ("API returned status " +:+ itoaZ statusCode +:+ ": "
                        +:+ body))),
              h1 ++ [update failing]))
    /\ (forall body graphqlResp message rest,
          http h1 (update failing) = HttpResponse 200 body ->
          parseResponse body = Ok graphqlResp ->
          Errors graphqlResp = message :: rest ->
          run = ((Slice (map Name done),
                  Some (updateError failing ("GraphQL error: " +:+ message))),
                 h1 ++ [update failing])).
Proof.
  intros http parseResponse decodeEnvironment order c environmentID
    imagePrefixes newVersion h data nodes done later failing
    respond update h1 run Hq Hd Hsel Hs.
  assert (Hm : fst (matchImage (Image failing) imagePrefixes) = true).
  { assert (Hin : In failing (matchedServices imagePrefixes
                                (servicesOf order 0 nodes)))
      by (rewrite Hsel; apply in_elt).
    apply filter_In in Hin. tauto. }
  assert (Hstop : forall e,
            respond h1 (update failing) = Err e ->
            run = ((Slice (map Name done), Some (updateError failing e)),
                   h1 ++ [update failing])).
  { intros e He. subst run h1.
    rewrite (UpdateServices_listed _ _ _ _ _ _ _ _ _ _ Hq Hd).
    rewrite <- app_assoc.
    apply (loop_first_failure respond c environmentID imagePrefixes
             newVersion _ done later failing [] _ _ _ Hsel Hs).
    intros rest u. now apply loop_update_fails. }
  split.
  - intros status body Hh Hne. apply Hstop.
    unfold respond, respondThrough, doRequestResult. rewrite Hh.
    destruct (status =? StatusOK)%Z eqn:E; [|reflexivity].
    apply Z.eqb_eq in E. contradiction.
  - intros body g m rest Hh Hp He. apply Hstop.
    unfold respond, respondThrough, doRequestResult.
    now rewrite Hh, Hp, He.
Qed.

Lemma UpdateServices_http_failure_sample :
  UpdateServices (respondThrough (httpBadGateway "s2") parseData)
    (environmentOf threeNodes) keyOrder sampleClient "env" ["myapp"] "v2" []
  = ((Slice ["web"],
      Some ("failed to update service worker: "
            +:+ "failed to update service instance: "
            +:+ "API returned status 502: Bad Gateway")),
     [EnvironmentQuery "env";
      ServiceInstanceUpdate "env" "s1" "myapp:v2" 1 None;
      ServiceInstanceDeploy "s1" "env" false;
      ServiceInstanceUpdate "env" "s2" "myapp-worker:v2" 1 None]).
Proof.
  apply (proj1 (UpdateServices_http_failure (httpBadGateway "s2") parseData
                  (environmentOf threeNodes) keyOrder sampleClient "env"
                  ["myapp"] "v2" [] "{}" threeNodes
                  [{| ID := "s1"; Name := "web"; Image := "myapp:v1.0.0";
                      NumReplicas := 1 |}]
                  [{| ID := "s3"; Name := "cron";
                      Image := "myapp-cron:v1.0.0"; NumReplicas := 1 |}]
                  {| ID := "s2"; Name := "worker";
                     Image := "myapp-worker:v1.0.0"; NumReplicas := 1 |}
                  eq_refl eq_refl eq_refl eq_refl)
           502%Z "Bad Gateway" eq_refl).
  discriminate.
Defined.

(** X14. The project is checked and then ignored. Two requests with valid
    project ids that agree on the environment, the prefixes and the
    version get the same answer and cause the same calls: the
    [project_id] of a request reaches no remote call. *)
Theorem handleUpdate_ignores_project_id :
  forall (respond : list Call -> Call -> result string)
    (decodeEnvironment : string -> result (list Node))
    (order : nat -> RangeOrder)
    (decodeRequest : string -> result UpdateRequest)
    (uuid_Parse : string -> bool) (c : RailwayClient)
    (body body' : string) (req req' : UpdateRequest) (h : list Call),
    decodeRequest body = Ok req ->
    decodeRequest body' = Ok req' ->
    uuid_Parse (ProjectID req) = true ->
    uuid_Parse (ProjectID req') = true ->
    EnvironmentID req = EnvironmentID req' ->
    ImagePrefixes req = ImagePrefixes req' ->
    NewVersion req = NewVersion req' ->
    handleUpdate respond decodeEnvironment order decodeRequest uuid_Parse c
      "PUT" body h
    = handleUpdate respond decodeEnvironment order decodeRequest uuid_Parse c
        "PUT" body' h.
Proof.
  intros respond decodeEnvironment order decodeRequest uuid_Parse c
    body body' req req' h Hd Hd' Hp Hp' He Hi Hv.
  unfold handleUpdate. rewrite Hd, Hd', Hp, Hp', He, Hi, Hv. reflexivity.
Qed.

Lemma handleUpdate_ignores_project_id_sample :
  handleUpdate respondOk (environmentOf threeNodes) keyOrder
    (bodiesOf (sampleRequest ["myapp"] "v2")
       "00000000-0000-0000-0000-000000000000")
    sampleUuidParse sampleClient "PUT" "body" []
  = handleUpdate respondOk (environmentOf threeNodes) keyOrder
      (bodiesOf (sampleRequest ["myapp"] "v2")
         "00000000-0000-0000-0000-000000000000")
      sampleUuidParse sampleClient "PUT" "other" [].
Proof.
  exact (handleUpdate_ignores_project_id respondOk (environmentOf threeNodes)
           keyOrder
           (bodiesOf (sampleRequest ["myapp"] "v2")
              "00000000-0000-0000-0000-000000000000")
           sampleUuidParse sampleClient "body" "other" _ _ []
           eq_refl eq_refl eq_refl eq_refl eq_refl eq_refl eq_refl).
Defined.
